(** * MinioConfig: profile resolution and endpoint adjustment

    A shallow embedding of [minio_utils/setup_minio_client.py].

    The class [MinioConfig] is a record of its seven instance fields; its
    methods are computations in a state-and-exception monad over the object
    and the console.  An exception leaves every assignment made before it in
    place, as in Python.  Everything the methods ask of the outside (the file
    system, the console input, [json.load], [socket]) is a field of [World];
    the default of [config_file], which [pkg_resources] computes, is left to
    the caller of [init].  The client construction ([get_minio_client], [test_connection],
    [setup_default_client]) only hands the five connection fields to boto3
    and is not part of this development. *)

From Stdlib Require Import String Ascii List ZArith Bool Arith Lia.
From Stdlib Require Import RelationClasses.
From Stdlib Require Import SpecFloat DecimalString.
Import ListNotations.

Set Warnings "-register-all".
Open Scope string_scope.

(** ** Python values *)

(** What [json.load] can return, and [None]: JSON [null] is [PNone], a JSON
    number is an [int] or a binary64 [float], an object is a [dict] with
    string keys kept in insertion order. *)
Inductive pyval : Type :=
| PNone
| PBool (b : bool)
| PInt (n : Z)
| PFloat (f : spec_float)
| PStr (s : string)
| PList (items : list pyval)
| PDict (entries : list (string * pyval)).

Definition dict : Type := list (string * pyval).

(** Python's truth value: [bool(v)]. *)
Definition truthy (v : pyval) : bool :=
  match v with
  | PNone => false
  | PBool b => b
  | PInt n => negb (n =? 0)%Z
  | PFloat (S754_zero _) => false
  | PFloat _ => true
  | PStr s => negb (s =? "")
  | PList items => match items with [] => false | _ :: _ => true end
  | PDict entries => match entries with [] => false | _ :: _ => true end
  end.

(** [all(vs)] *)
Definition py_all (vs : list pyval) : bool := forallb truthy vs.

(** [type(v).__name__] *)
Definition type_name (v : pyval) : string :=
  match v with
  | PNone => "NoneType"
  | PBool _ => "bool"
  | PInt _ => "int"
  | PFloat _ => "float"
  | PStr _ => "str"
  | PList _ => "list"
  | PDict _ => "dict"
  end.

(** ** Exceptions *)

Inductive exn : Type :=
| ValueError (msg : string)
| JSONDecodeError (msg : string)
| UnicodeDecodeError (msg : string)
| FileNotFoundError (msg : string)
| OSError (msg : string)
| EOFError (msg : string)
| gaierror (msg : string)
| AttributeError (msg : string).

Inductive result (A : Type) : Type :=
| Ok (a : A)
| Raise (e : exn).
Arguments Ok {A} a.
Arguments Raise {A} e.

Definition no_attribute (v : pyval) (attr : string) : exn :=
  AttributeError ("'" ++ type_name v ++ "' object has no attribute '" ++ attr ++ "'").

(** ** Dictionaries and strings *)

Fixpoint dict_lookup (d : dict) (k : string) : option pyval :=
  match d with
  | [] => None
  | (k', v) :: d' => if k' =? k then Some v else dict_lookup d' k
  end.

(** [d.get(k, default)] on a [dict]. *)
Definition dict_get (d : dict) (k : string) (default : pyval) : pyval :=
  match dict_lookup d k with
  | Some v => v
  | None => default
  end.

(** [obj.get(k, default)]: only a [dict] has the method. *)
Definition py_get (obj : pyval) (k : string) (default : pyval) : result pyval :=
  match obj with
  | PDict d => Ok (dict_get d k default)
  | _ => Raise (no_attribute obj "get")
  end.

(** [list(obj.keys())] *)
Definition py_keys (obj : pyval) : result (list string) :=
  match obj with
  | PDict d => Ok (map fst d)
  | _ => Raise (no_attribute obj "keys")
  end.

(** [s.replace("", new)]: [new] before every character and at the end. *)
Fixpoint interleave (new s : string) : string :=
  match s with
  | EmptyString => new
  | String c s' => new ++ String c (interleave new s')
  end.

(** The scan of [str.replace] for a non-empty [old]: left to right, a match
    is replaced and the scan resumes after it; [skip] counts the characters
    of the current match still to pass over. *)
Fixpoint replace_from (skip : nat) (old new s : string) : string :=
  match s with
  | EmptyString => EmptyString
  | String c s' =>
      match skip with
      | S k => replace_from k old new s'
      | O =>
          if prefix old s
          then new ++ replace_from (String.length old - 1) old new s'
          else String c (replace_from 0 old new s')
      end
  end.

(** [s.replace(old, new)] *)
Definition str_replace (old new s : string) : string :=
  if old =? "" then interleave new s else replace_from 0 old new s.

(** [obj.replace(old, new)]: only a [str] has the method, and it returns a
    [str]. *)
Definition py_replace (obj : pyval) (old new : string) : result string :=
  match obj with
  | PStr s => Ok (str_replace old new s)
  | _ => Raise (no_attribute obj "replace")
  end.

(** [str(n)] for an [int]. *)
Definition str_of_int (n : Z) : string := NilZero.string_of_int (Z.to_int n).

(** ** The object and the outside world *)

Definition Path : Type := string.

Record MinioConfig : Type := mkMinioConfig {
  config_file_path : Path;
  configs : pyval;
  endpoint_url : pyval;
  aws_access_key_id : pyval;
  aws_secret_access_key : pyval;
  region_name : pyval;
  signature_version : pyval
}.

Definition set_config_file_path (p : Path) (o : MinioConfig) : MinioConfig :=
  mkMinioConfig p (configs o) (endpoint_url o) (aws_access_key_id o)
    (aws_secret_access_key o) (region_name o) (signature_version o).
Definition set_configs (v : pyval) (o : MinioConfig) : MinioConfig :=
  mkMinioConfig (config_file_path o) v (endpoint_url o) (aws_access_key_id o)
    (aws_secret_access_key o) (region_name o) (signature_version o).
Definition set_endpoint_url (v : pyval) (o : MinioConfig) : MinioConfig :=
  mkMinioConfig (config_file_path o) (configs o) v (aws_access_key_id o)
    (aws_secret_access_key o) (region_name o) (signature_version o).
Definition set_aws_access_key_id (v : pyval) (o : MinioConfig) : MinioConfig :=
  mkMinioConfig (config_file_path o) (configs o) (endpoint_url o) v
    (aws_secret_access_key o) (region_name o) (signature_version o).
Definition set_aws_secret_access_key (v : pyval) (o : MinioConfig) : MinioConfig :=
  mkMinioConfig (config_file_path o) (configs o) (endpoint_url o)
    (aws_access_key_id o) v (region_name o) (signature_version o).
Definition set_region_name (v : pyval) (o : MinioConfig) : MinioConfig :=
  mkMinioConfig (config_file_path o) (configs o) (endpoint_url o)
    (aws_access_key_id o) (aws_secret_access_key o) v (signature_version o).
Definition set_signature_version (v : pyval) (o : MinioConfig) : MinioConfig :=
  mkMinioConfig (config_file_path o) (configs o) (endpoint_url o)
    (aws_access_key_id o) (aws_secret_access_key o) (region_name o) v.

(** [MinioConfig.MAC_HOSTNAME] *)
Definition MAC_HOSTNAME : string := "Antons-MacBook-Pro-3.local".

(** [MinioConfig.__init__(config_file)] *)
Definition init (config_file : Path) : MinioConfig :=
  mkMinioConfig config_file PNone PNone PNone PNone PNone PNone.

(** What the methods call outside the class.  A call that can raise returns
    a [result]. *)
Record World : Type := mkWorld {
  (** [path.exists()] *)
  path_exists : Path -> bool;
  (** [path.parent] *)
  path_parent : Path -> Path;
  (** [list(dir.glob('*.json'))] *)
  glob_json : Path -> list Path;
  (** [input(prompt)]: the line typed, or the exception raised *)
  input : string -> result string;
  (** [int(s)] for a [str] *)
  int_of_str : string -> result Z;
  (** [open(path, 'r')], giving the text [json.load] will read *)
  open_text : Path -> result string;
  (** [json.load] on that text *)
  json_load : string -> result pyval;
  (** [socket.gethostbyname(host)] *)
  gethostbyname : string -> result string;
  (** [socket.gethostname()] *)
  gethostname : string
}.

(** The running program: the resolver object and the lines printed so far. *)
Record Process : Type := mkProcess {
  self : MinioConfig;
  stdout : list string
}.

(** ** The monad *)

Definition M (A : Type) : Type := Process -> result A * Process.

Definition ret {A} (a : A) : M A := fun p => (Ok a, p).

Definition bind {A B} (m : M A) (k : A -> M B) : M B :=
  fun p =>
    match m p with
    | (Ok a, p') => k a p'
    | (Raise e, p') => (Raise e, p')
    end.

Definition raise {A} (e : exn) : M A := fun p => (Raise e, p).

(** A call into the world or into a builtin. *)
Definition call {A} (r : result A) : M A := fun p => (r, p).

(** [try: body  except <class> as e: handler]; [handler e] is [None] when
    the [except] clause does not match [e]. *)
Definition try_except {A} (body : M A) (handler : exn -> option (M A)) : M A :=
  fun p =>
    match body p with
    | (Ok a, p') => (Ok a, p')
    | (Raise e, p') =>
        match handler e with
        | Some h => h p'
        | None => (Raise e, p')
        end
    end.

Definition get_self : M MinioConfig := fun p => (Ok (self p), p).

Definition modify_self (f : MinioConfig -> MinioConfig) : M unit :=
  fun p => (Ok tt, mkProcess (f (self p)) (stdout p)).

Definition print (line : string) : M unit :=
  fun p => (Ok tt, mkProcess (self p) (stdout p ++ [line])).

Declare Scope py_scope.
Delimit Scope py_scope with py.
Notation "x <- m ;; k" := (bind m (fun x => k))
  (at level 61, m at next level, right associativity) : py_scope.
Notation "m ;; k" := (bind m (fun _ => k))
  (at level 61, right associativity) : py_scope.
Open Scope py_scope.

(** ** The methods of [MinioConfig] *)

Section Methods.

Variable w : World.

(** [for idx, file in enumerate(available_files, idx): print(f"{idx}: {file}")] *)
Fixpoint print_files (idx : Z) (files : list Path) : M unit :=
  match files with
  | [] => ret tt
  | file :: rest =>
      print (str_of_int idx ++ ": " ++ file) ;;
      print_files (idx + 1) rest
  end.

Definition prompt_for_config_file : M Path :=
  o <- get_self ;;
  let parent := path_parent w (config_file_path o) in
  let available_files := glob_json w parent in
  match available_files with
  | [] => raise (FileNotFoundError ("No JSON configuration files found in " ++ parent))
  | _ :: _ =>
      print "Default configuration file not found. Available files:" ;;
      print_files 1 available_files ;;
      line <- call (input w "Select a file by entering the corresponding number: ") ;;
      n <- call (int_of_str w line) ;;
      let file_choice := (n - 1)%Z in
      if ((0 <=? file_choice) && (file_choice <? Z.of_nat (List.length available_files)))%Z
      then
        (* [available_files[file_choice]]; the index is in range here *)
        match nth_error available_files (Z.to_nat file_choice) with
        | Some file => ret file
        | None => raise (ValueError "Invalid selection. Please select a valid number from the list.")
        end
      else raise (ValueError "Invalid selection. Please select a valid number from the list.")
  end.

Definition get_valid_config_path : M Path :=
  o <- get_self ;;
  if path_exists w (config_file_path o)
  then ret (config_file_path o)
  else prompt_for_config_file.

(** A static method: it does not touch [self]. *)
Definition read_config (path : Path) : M pyval :=
  try_except
    (text <- call (open_text w path) ;;
     print ("Loaded configuration from: " ++ path) ;;
     call (json_load w text))
    (fun e =>
       match e with
       | JSONDecodeError msg =>
           Some (raise (ValueError ("Invalid JSON format in '" ++ path ++ "': " ++ msg)))
       | _ => None
       end).

Definition load_config : M unit :=
  path <- get_valid_config_path ;;
  modify_self (set_config_file_path path) ;;
  o <- get_self ;;
  cfg <- read_config (config_file_path o) ;;
  modify_self (set_configs cfg).

Definition ensure_configs_loaded : M unit :=
  o <- get_self ;;
  if negb (truthy (configs o))
  then raise (ValueError "Configuration file has not been loaded. Call 'load_config' first.")
  else ret tt.

Definition list_machines : M (list string) :=
  ensure_configs_loaded ;;
  o <- get_self ;;
  call (py_keys (configs o)).

Definition get_machine_config (machine_name : string) : M pyval :=
  o <- get_self ;;
  config <- call (py_get (configs o) machine_name PNone) ;;
  if negb (truthy config)
  then raise (ValueError ("Machine '" ++ machine_name ++ "' not found in configuration."))
  else ret config.

Definition validate_attributes : M unit :=
  o <- get_self ;;
  if negb (py_all [endpoint_url o; aws_access_key_id o; aws_secret_access_key o])
  then raise (ValueError "Configuration is missing required attributes.")
  else ret tt.

Definition set_connection_attributes (config : pyval) : M unit :=
  v <- call (py_get config "endpoint_url" PNone) ;;
  modify_self (set_endpoint_url v) ;;
  v <- call (py_get config "aws_access_key_id" PNone) ;;
  modify_self (set_aws_access_key_id v) ;;
  v <- call (py_get config "aws_secret_access_key" PNone) ;;
  modify_self (set_aws_secret_access_key v) ;;
  v <- call (py_get config "region_name" (PStr "us-east-1")) ;;
  modify_self (set_region_name v) ;;
  v <- call (py_get config "signature_version" (PStr "s3v4")) ;;
  modify_self (set_signature_version v) ;;
  validate_attributes.

(** Returns [Optional[str]]: [None] is Python's [None]. *)
Definition get_mac_ip : M (option string) :=
  try_except
    (ip <- call (gethostbyname w MAC_HOSTNAME) ;; ret (Some ip))
    (fun e =>
       match e with
       | gaierror _ =>
           Some (print "Unable to resolve the Mac's IP. Ensure the hostname is correct and reachable." ;;
                 ret None)
       | _ => None
       end).

(** In [mac_ip and current_ip != mac_ip and self.endpoint_url], [mac_ip] is
    falsy when it is [None] or the empty string; the comparison is between
    two [str]. *)
Definition adjust_endpoint_ip : M unit :=
  mac_ip <- get_mac_ip ;;
  current_ip <- call (gethostbyname w (gethostname w)) ;;
  o <- get_self ;;
  match mac_ip with
  | Some mac =>
      if negb (mac =? "") && negb (current_ip =? mac) && truthy (endpoint_url o)
      then
        url <- call (py_replace (endpoint_url o) mac current_ip) ;;
        modify_self (set_endpoint_url (PStr url)) ;;
        print ("Endpoint URL updated to current IP (" ++ current_ip ++ "): " ++ url)
      else ret tt
  | None => ret tt
  end.

Definition select_machine (machine_name : string) : M unit :=
  ensure_configs_loaded ;;
  selected_config <- get_machine_config machine_name ;;
  set_connection_attributes selected_config ;;
  adjust_endpoint_ip.

End Methods.

(** ** The spec's names for the exceptions the code raises

    Every one of them is a [ValueError] in the code; they differ by message. *)

Definition ConfigFormatError (path : Path) (msg : string) : exn :=
  ValueError ("Invalid JSON format in '" ++ path ++ "': " ++ msg).

Definition NotLoadedError : exn :=
  ValueError "Configuration file has not been loaded. Call 'load_config' first.".

Definition UnknownProfileError (machine_name : string) : exn :=
  ValueError ("Machine '" ++ machine_name ++ "' not found in configuration.").

Definition MissingAttributesError : exn :=
  ValueError "Configuration is missing required attributes.".

Definition is_ConfigFormatError (e : exn) : bool :=
  match e with
  | ValueError msg => prefix "Invalid JSON format in '" msg
  | _ => false
  end.

(** The object after [set_connection_attributes] has read a profile: the
    three required attributes as [config.get(key)] gives them, the two
    optional ones with their defaults. *)
Definition connection_of (attrs : dict) (o : MinioConfig) : MinioConfig :=
  mkMinioConfig (config_file_path o) (configs o)
    (dict_get attrs "endpoint_url" PNone)
    (dict_get attrs "aws_access_key_id" PNone)
    (dict_get attrs "aws_secret_access_key" PNone)
    (dict_get attrs "region_name" (PStr "us-east-1"))
    (dict_get attrs "signature_version" (PStr "s3v4")).

(** What the [except] clause of [read_config] makes of an exception raised
    in its [try] block. *)
Definition reported (path : Path) (e : exn) : exn :=
  match e with
  | JSONDecodeError msg => ConfigFormatError path msg
  | _ => e
  end.

(** ** Vocabulary of the specification *)

(** The three attributes a profile must carry. *)
Definition required_attributes : list string :=
  ["endpoint_url"; "aws_access_key_id"; "aws_secret_access_key"].

(** An attribute that is absent from the profile, or present with a falsy
    value ([null], [""], [0], [false], an empty array or object). *)
Definition absent_or_falsy (attrs : dict) (k : string) : Prop :=
  dict_lookup attrs k = None \/
  exists v, dict_lookup attrs k = Some v /\ truthy v = false.

(** A profile name that is absent from the document, or whose value is
    falsy. *)
Definition unknown_profile (d : dict) (name : string) : Prop :=
  dict_lookup d name = None \/
  exists v, dict_lookup d name = Some v /\ truthy v = false.

(** The spec's shape of a configuration document, in its words: "an object
    mapping profile names to attribute objects". *)
Definition is_object (v : pyval) : bool :=
  match v with PDict _ => true | _ => false end.

Definition is_object_of_objects (v : pyval) : bool :=
  match v with
  | PDict d => forallb (fun kv => is_object (snd kv)) d
  | _ => false
  end.

(** The endpoint after adjustment, in the words of the spec's algorithm:
    unchanged when the reference host did not resolve or resolved to the
    current host's address, otherwise with the reference IP replaced. *)
Definition adjusted_endpoint (mac_lookup : result string) (cur url : string)
    : string :=
  match mac_lookup with
  | Ok mac =>
      if (mac =? "") || (cur =? mac) then url else str_replace mac cur url
  | Raise _ => url
  end.

(** What a caller asks of a resolver after loading. *)
Inductive request : Type :=
| Select (machine_name : string)
| ListMachines.

Definition failure {A} (r : result A) : option exn :=
  match r with
  | Ok _ => None
  | Raise e => Some e
  end.

(** A run of requests, one after the other on the same resolver, a failed
    one not stopping the next: the exception each one raised, if any. *)
Fixpoint run_requests (w : World) (rs : list request) (p : Process)
    : list (option exn) :=
  match rs with
  | [] => []
  | Select name :: rs' =>
      let (r, p') := select_machine w name p in
      failure r :: run_requests w rs' p'
  | ListMachines :: rs' =>
      let (r, p') := list_machines p in
      failure r :: run_requests w rs' p'
  end.

(** [old] occurs in [s] as a literal substring. *)
Definition occurs (old s : string) : Prop :=
  exists a b, s = a ++ old ++ b.

(** The occurrence of [old] right after [a] in [a ++ old ++ b] is the
    leftmost one. *)
Definition leftmost (old a b : string) : Prop :=
  forall a1 b1, a ++ old ++ b = a1 ++ old ++ b1 ->
    String.length a <= String.length a1.

(** "Every occurrence of [old] replaced by [new]", in the spec's words and
    with the reading of [str.replace]: occurrences are taken from the left
    and do not overlap. *)
Inductive Replaced (old new : string) : string -> string -> Prop :=
| Replaced_none s :
    ~ occurs old s -> Replaced old new s s
| Replaced_first a b b' :
    leftmost old a b -> Replaced old new b b' ->
    Replaced old new (a ++ old ++ b) (a ++ new ++ b').

(** The leftmost occurrence of [old] in [s], as the text before it and the
    text after it. *)
Fixpoint string_drop (n : nat) (s : string) : string :=
  match n, s with
  | O, _ => s
  | S _, EmptyString => EmptyString
  | S k, String _ s' => string_drop k s'
  end.

Fixpoint find_first (old s : string) : option (string * string) :=
  if prefix old s
  then Some ("", string_drop (String.length old) s)
  else
    match s with
    | EmptyString => None
    | String c s' =>
        match find_first old s' with
        | Some (a, b) => Some (String c a, b)
        | None => None
        end
    end.

(** ** Sample worlds *)

(** A machine whose configuration file exists and holds [text], which
    [json.load] reads as [doc]; the reference host and the machine itself
    resolve as given. *)
Definition sample_world (text : string) (doc : result pyval)
    (mac_ip current_ip : result string) : World :=
  mkWorld
    (fun _ => true)
    (fun _ => "/etc/minio")
    (fun _ => [])
    (fun _ => Raise (EOFError "EOF when reading a line"))
    (fun s => Raise (ValueError ("invalid literal for int() with base 10: '" ++ s ++ "'")))
    (fun _ => Ok text)
    (fun t => if t =? text then doc else Raise (JSONDecodeError "Expecting value: line 1 column 1 (char 0)"))
    (fun host =>
       if host =? MAC_HOSTNAME then mac_ip
       else if host =? "workstation" then current_ip
       else Raise (gaierror "[Errno 8] nodename nor servname provided, or not known"))
    "workstation".

(** The double quote, for JSON text. *)
Definition dq : string := String (ascii_of_nat 34) "".
Definition quoted (s : string) : string := dq ++ s ++ dq.

(** A document with one complete profile, and its text. *)
Definition mac_profile : dict :=
  [("endpoint_url", PStr "http://10.0.0.5:9000");
   ("aws_access_key_id", PStr "minioadmin");
   ("aws_secret_access_key", PStr "minio-secret")].

Definition mac_document : pyval := PDict [("mac", PDict mac_profile)].

Definition mac_document_text : string :=
  "{" ++ quoted "mac" ++ ": {"
      ++ quoted "endpoint_url" ++ ": " ++ quoted "http://10.0.0.5:9000" ++ ", "
      ++ quoted "aws_access_key_id" ++ ": " ++ quoted "minioadmin" ++ ", "
      ++ quoted "aws_secret_access_key" ++ ": " ++ quoted "minio-secret"
      ++ "}}".

(** A document whose only profile lacks its secret key. *)
Definition keyless_document : pyval :=
  PDict [("mac", PDict [("endpoint_url", PStr "http://10.0.0.5:9000");
                        ("aws_access_key_id", PStr "minioadmin")])].

Definition keyless_document_text : string :=
  "{" ++ quoted "mac" ++ ": {"
      ++ quoted "endpoint_url" ++ ": " ++ quoted "http://10.0.0.5:9000" ++ ", "
      ++ quoted "aws_access_key_id" ++ ": " ++ quoted "minioadmin"
      ++ "}}".

(** A document whose only profile is an empty object. *)
Definition hollow_document : pyval := PDict [("mac", PDict [])].
Definition hollow_document_text : string := "{" ++ quoted "mac" ++ ": {}}".

(** A document whose endpoint is a number, not a string. *)
Definition numeric_document : pyval :=
  PDict [("mac", PDict [("endpoint_url", PInt 9000);
                        ("aws_access_key_id", PStr "minioadmin");
                        ("aws_secret_access_key", PStr "minio-secret")])].

Definition numeric_document_text : string :=
  "{" ++ quoted "mac" ++ ": {"
      ++ quoted "endpoint_url" ++ ": 9000, "
      ++ quoted "aws_access_key_id" ++ ": " ++ quoted "minioadmin" ++ ", "
      ++ quoted "aws_secret_access_key" ++ ": " ++ quoted "minio-secret"
      ++ "}}".

Definition fresh : Process := mkProcess (init "/etc/minio/minio_configs.json") [].

Definition unresolved : result string :=
  Raise (gaierror "[Errno 8] nodename nor servname provided, or not known").

(** The machine the configuration was written on is at 10.0.0.5; [office]
    runs at 10.0.0.9 on the same network, [home] is that machine itself,
    [away] cannot resolve the reference host, [stranded] cannot resolve its
    own name. *)
Definition office (text : string) (doc : result pyval) : World :=
  sample_world text doc (Ok "10.0.0.5") (Ok "10.0.0.9").
Definition home (text : string) (doc : result pyval) : World :=
  sample_world text doc (Ok "10.0.0.5") (Ok "10.0.0.5").
Definition away (text : string) (doc : result pyval) : World :=
  sample_world text doc unresolved (Ok "10.0.0.9").
Definition stranded (text : string) (doc : result pyval) : World :=
  sample_world text doc (Ok "10.0.0.5") unresolved.

(** A resolver that has loaded [doc]. *)
Definition loaded (doc : pyval) : Process :=
  mkProcess (set_configs doc (init "/etc/minio/minio_configs.json"))
    ["Loaded configuration from: /etc/minio/minio_configs.json"].

(** A resolver holding a connection resolved earlier. *)
Definition connected (doc : pyval) : Process :=
  mkProcess
    (mkMinioConfig "/etc/minio/minio_configs.json" doc
       (PStr "http://10.0.0.5:9000") (PStr "minioadmin") (PStr "minio-secret")
       (PStr "us-east-1") (PStr "s3v4"))
    [].

(** ** The storage client

    [get_minio_client], [test_connection] and [setup_default_client] hand the
    resolved connection to boto3.  The client is whatever [boto3.client]
    returns; the methods only pass it on and call its [list_buckets]. *)

(** What [test_connection] can catch: the three botocore exceptions it names,
    the [KeyError] of a missing member of the response, and any other
    [Exception], kept as its [str]. *)
Inductive client_exn : Type :=
| NoCredentialsError (msg : string)
| PartialCredentialsError (msg : string)
| EndpointConnectionError (msg : string)
| KeyError (key : string)
| OtherException (msg : string).

(** [str(e)]; a [KeyError] shows its key quoted. *)
Definition str_of_client_exn (e : client_exn) : string :=
  match e with
  | NoCredentialsError msg => msg
  | PartialCredentialsError msg => msg
  | EndpointConnectionError msg => msg
  | KeyError key => "'" ++ key ++ "'"
  | OtherException msg => msg
  end.

(** The response of [list_buckets] as the code reads it: [response['Buckets']]
    and, of each bucket, [bucket['Name']]; a member the response lacks is
    [None]. *)
Record Bucket : Type := mkBucket {
  Name : option string
}.

Record ListBucketsOutput : Type := mkListBucketsOutput {
  Buckets : option (list Bucket)
}.

(** [mapping[key]] *)
Definition getitem {A} (key : string) (member : option A) : client_exn + A :=
  match member with
  | Some a => inr a
  | None => inl (KeyError key)
  end.

(** boto3, for a type of clients. *)
Record Boto3 (Client : Type) : Type := mkBoto3 {
  (** [boto3.client(service, endpoint_url=, aws_access_key_id=,
      aws_secret_access_key=, config=Config(signature_version=),
      region_name=)]; what it raises is taken among [exn] *)
  boto3_client :
    string -> pyval -> pyval -> pyval -> pyval -> pyval -> result Client;
  (** [client.list_buckets()] *)
  list_buckets : Client -> client_exn + ListBucketsOutput
}.
Arguments boto3_client {Client} _ _ _ _ _ _ _.
Arguments list_buckets {Client} _ _.

(** The body of the [try] of [test_connection]: it prints and may raise a
    [client_exn]. *)
Definition Try (A : Type) : Type := Process -> (client_exn + A) * Process.

Definition try_ret {A} (a : A) : Try A := fun p => (inr a, p).

Definition try_bind {A B} (m : Try A) (k : A -> Try B) : Try B :=
  fun p =>
    match m p with
    | (inr a, p') => k a p'
    | (inl e, p') => (inl e, p')
    end.

Definition try_call {A} (r : client_exn + A) : Try A := fun p => (r, p).

Definition try_print (line : string) : Try unit :=
  fun p => (inr tt, mkProcess (self p) (stdout p ++ [line])).

(** [try: body  except ...: handler], the last clause being
    [except Exception], which catches whatever the others let through. *)
Definition except_all {A} (body : Try A) (handler : client_exn -> M A) : M A :=
  fun p =>
    match body p with
    | (inr a, p') => (Ok a, p')
    | (inl e, p') => handler e p'
    end.

Declare Scope try_scope.
Delimit Scope try_scope with try.
Notation "x <- m ;; k" := (try_bind m (fun x => k))
  (at level 61, m at next level, right associativity) : try_scope.
Notation "m ;; k" := (try_bind m (fun _ => k))
  (at level 61, right associativity) : try_scope.

(** [for bucket in response['Buckets']: print(f" - {bucket['Name']}")] *)
Fixpoint print_buckets (buckets : list Bucket) : Try unit :=
  match buckets with
  | [] => try_ret tt
  | bucket :: rest =>
      (name <- try_call (getitem "Name" (Name bucket)) ;;
       try_print (" - " ++ name) ;;
       print_buckets rest)%try
  end.

Section ClientMethods.

Context {Client : Type}.
Variable w : World.
Variable b : Boto3 Client.

Definition get_minio_client : M Client :=
  validate_attributes ;;
  o <- get_self ;;
  call (boto3_client b "s3" (endpoint_url o) (aws_access_key_id o)
          (aws_secret_access_key o) (signature_version o) (region_name o)).

(** A static method.  [response['Buckets']] is read twice in the source; the
    second reading gives what the first gave. *)
Definition test_connection (client : Client) : M unit :=
  except_all
    (response <- try_call (list_buckets b client) ;;
     buckets <- try_call (getitem "Buckets" (Buckets response)) ;;
     match buckets with
     | _ :: _ =>
         try_print "Connection successful! Buckets found:" ;;
         print_buckets buckets
     | [] => try_print "Connection successful, but no buckets found."
     end)%try
    (fun e =>
       match e with
       | NoCredentialsError _ | PartialCredentialsError _ =>
           print ("Credentials error: " ++ str_of_client_exn e)
       | EndpointConnectionError _ =>
           print "Unable to connect to the endpoint. Check your connection or endpoint URL."
       | _ => print ("An error occurred: " ++ str_of_client_exn e)
       end).

(** [machine_name] defaults to ['mac'] in the source. *)
Definition setup_default_client (machine_name : string) : M Client :=
  load_config w ;;
  select_machine w machine_name ;;
  client <- get_minio_client ;;
  test_connection client ;;
  ret client.

End ClientMethods.

(** ** What a method leaves alone *)

(** [m] keeps the resolver within [R] of where it started, whether it
    returns or raises. *)
Definition preserves {A} (R : MinioConfig -> MinioConfig -> Prop) (m : M A)
    : Prop :=
  forall p, R (self p) (self (snd (m p))).

(** The file and the document are the same. *)
Definition same_document (o o' : MinioConfig) : Prop :=
  config_file_path o' = config_file_path o /\ configs o' = configs o.

(** The five connection attributes are the same. *)
Definition same_connection (o o' : MinioConfig) : Prop :=
  endpoint_url o' = endpoint_url o /\
  aws_access_key_id o' = aws_access_key_id o /\
  aws_secret_access_key o' = aws_secret_access_key o /\
  region_name o' = region_name o /\
  signature_version o' = signature_version o.

(** Everything but the endpoint is the same. *)
Definition same_but_endpoint (o o' : MinioConfig) : Prop :=
  config_file_path o' = config_file_path o /\
  configs o' = configs o /\
  aws_access_key_id o' = aws_access_key_id o /\
  aws_secret_access_key o' = aws_secret_access_key o /\
  region_name o' = region_name o /\
  signature_version o' = signature_version o.

(** The lines [prompt_for_config_file] prints for the files it offers. *)
Fixpoint numbered (idx : Z) (files : list Path) : list string :=
  match files with
  | [] => []
  | file :: rest => (str_of_int idx ++ ": " ++ file) :: numbered (idx + 1) rest
  end.

(** The lines [test_connection] prints for buckets that all have a name. *)
Definition bucket_lines (names : list string) : list string :=
  map (fun name => " - " ++ name) names.

(** ** Sample clients *)

(** A client that remembers how it was built. *)
Record ClientSettings : Type := mkClientSettings {
  service_name : string;
  client_endpoint_url : pyval;
  client_access_key_id : pyval;
  client_secret_access_key : pyval;
  client_signature_version : pyval;
  client_region_name : pyval
}.

(** A boto3 that builds every client and whose [list_buckets] answers
    [listing]. *)
Definition sample_boto3 (listing : client_exn + ListBucketsOutput)
    : Boto3 ClientSettings :=
  mkBoto3 ClientSettings
    (fun service url key secret sig region =>
       Ok (mkClientSettings service url key secret sig region))
    (fun _ => listing).

Definition refused : client_exn + ListBucketsOutput :=
  inl (EndpointConnectionError
         "Could not connect to the endpoint URL: http://10.0.0.9:9000/").

Definition two_buckets : client_exn + ListBucketsOutput :=
  inr (mkListBucketsOutput
         (Some [mkBucket (Some "backups"); mkBucket (Some "photos")])).

(** A directory where the configured file is missing and [files] are
    offered; the user types [line], which [int] reads as [n]. *)
Definition prompting_world (files : list Path) (line : string) (n : result Z)
    : World :=
  mkWorld
    (fun _ => false)
    (fun _ => "/etc/minio")
    (fun _ => files)
    (fun _ => Ok line)
    (fun _ => n)
    (fun _ => Ok "{}")
    (fun _ => Ok (PDict []))
    (fun _ => unresolved)
    "workstation".

(** * Strings: [str.replace] replaces every occurrence *)

Section Replace.

Lemma length_append (a b : string) :
  String.length (a ++ b) = String.length a + String.length b.
Proof. induction a as [|x a IH]; simpl; [reflexivity | now rewrite IH]. Qed.

Lemma prefix_true_iff (old s : string) :
  prefix old s = true <-> exists b, s = old ++ b.
Proof.
  revert s; induction old as [|c old IH]; intros s; simpl.
  - split; [intros _; now exists s | now destruct s].
  - destruct s as [|c' s]; [split; [discriminate | intros [b Hb]; discriminate]|].
    simpl. destruct (ascii_dec c c') as [->|Hne].
    + split.
      * intros H. apply IH in H as [b Hb]. exists b. now rewrite Hb.
      * intros [b Hb]. apply IH. exists b. now inversion Hb.
    + split; [discriminate | intros [b Hb]; inversion Hb; subst; now elim Hne].
Qed.

Lemma prefix_false_no_head (old s : string) :
  prefix old s = false -> forall b, s <> old ++ b.
Proof.
  intros H b Hb.
  assert (prefix old s = true) by (apply prefix_true_iff; now exists b).
  congruence.
Qed.

Lemma string_drop_append (a b : string) : string_drop (String.length a) (a ++ b) = b.
Proof. induction a as [|c a IH]; simpl; [now destruct b | exact IH]. Qed.

Lemma replace_from_skip (x old new b : string) :
  replace_from (String.length x) old new (x ++ b) = replace_from 0 old new b.
Proof. induction x as [|c x IH]; simpl; [reflexivity | exact IH]. Qed.

Lemma replace_from_here (old new b : string) :
  old <> "" ->
  replace_from 0 old new (old ++ b) = new ++ replace_from 0 old new b.
Proof.
  intros Hne. destruct old as [|c old]; [congruence|].
  change (String c old ++ b) with (String c (old ++ b)).
  cbv beta iota delta [replace_from]; fold replace_from.
  assert (Hp : prefix (String c old) (String c (old ++ b)) = true)
    by (apply prefix_true_iff; now exists b).
  rewrite Hp. f_equal.
  replace (String.length (String c old) - 1) with (String.length old)
    by (simpl; lia).
  apply replace_from_skip.
Qed.

Lemma replace_from_step (old new : string) (c : ascii) (s : string) :
  prefix old (String c s) = false ->
  replace_from 0 old new (String c s) = String c (replace_from 0 old new s).
Proof.
  intros Hp. cbv beta iota delta [replace_from]; fold replace_from.
  now rewrite Hp.
Qed.

Lemma occurs_tail (old : string) (c : ascii) (s : string) :
  occurs old s -> occurs old (String c s).
Proof. intros (a & b & ->). now exists (String c a), b. Qed.

Lemma not_occurs_no_prefix (old s : string) :
  ~ occurs old s -> prefix old s = false.
Proof.
  intros H. destruct (prefix old s) eqn:Hp; [|reflexivity].
  apply prefix_true_iff in Hp as [b ->]. exfalso. apply H. now exists "", b.
Qed.

(** No occurrence: the string is returned as it is. *)
Lemma replace_from_absent (old new s : string) :
  ~ occurs old s -> replace_from 0 old new s = s.
Proof.
  induction s as [|c s IH]; intros H; [reflexivity|].
  rewrite replace_from_step by now apply not_occurs_no_prefix.
  f_equal. apply IH. intros Ho. apply H. now apply occurs_tail.
Qed.

Lemma leftmost_tail (old : string) (c : ascii) (a b : string) :
  leftmost old (String c a) b -> leftmost old a b.
Proof.
  intros H a1 b1 E.
  specialize (H (String c a1) b1). simpl in H. rewrite E in H.
  specialize (H eq_refl). lia.
Qed.

Lemma leftmost_no_prefix (old : string) (c : ascii) (a b : string) :
  leftmost old (String c a) b -> prefix old (String c a ++ old ++ b) = false.
Proof.
  intros H. destruct (prefix old _) eqn:Hp; [|reflexivity].
  apply prefix_true_iff in Hp as [b1 Hb1].
  specialize (H "" b1 Hb1). simpl in H. lia.
Qed.

(** The leftmost occurrence is replaced and the scan goes on after it. *)
Lemma replace_from_leftmost (old new a b : string) :
  old <> "" -> leftmost old a b ->
  replace_from 0 old new (a ++ old ++ b) = a ++ new ++ replace_from 0 old new b.
Proof.
  intros Hne. induction a as [|c a IH]; intros Hl.
  - cbn [append]. now apply replace_from_here.
  - pose proof (leftmost_no_prefix _ _ _ _ Hl) as Hp.
    change (String c a ++ old ++ b) with (String c (a ++ old ++ b)) in *.
    rewrite replace_from_step by exact Hp.
    simpl. f_equal. apply IH. now apply leftmost_tail in Hl.
Qed.

Lemma find_first_eq (old s : string) :
  find_first old s =
  if prefix old s then Some ("", string_drop (String.length old) s)
  else match s with
       | EmptyString => None
       | String c s' =>
           match find_first old s' with
           | Some (a, b) => Some (String c a, b)
           | None => None
           end
       end.
Proof. destruct s; reflexivity. Qed.

Lemma find_first_none (old s : string) :
  find_first old s = None -> ~ occurs old s.
Proof.
  induction s as [|c s IH]; rewrite find_first_eq.
  - destruct (prefix old "") eqn:Hp; [discriminate|].
    intros _ (a & b & E). destruct a; simpl in E; [|discriminate].
    now apply (prefix_false_no_head _ _ Hp b).
  - destruct (prefix old (String c s)) eqn:Hp; [discriminate|].
    destruct (find_first old s) as [[a b]|] eqn:Hf; [discriminate|].
    intros _ (a & b & E). destruct a as [|c' a]; simpl in E.
    + now apply (prefix_false_no_head _ _ Hp b).
    + inversion E; subst. apply IH; [reflexivity | now exists a, b].
Qed.

Lemma find_first_here (old s : string) :
  prefix old s = true ->
  s = "" ++ old ++ string_drop (String.length old) s /\
  leftmost old "" (string_drop (String.length old) s).
Proof.
  intros Hp. apply prefix_true_iff in Hp as [b ->].
  rewrite string_drop_append.
  split; [reflexivity | intros a1 b1 _; simpl; lia].
Qed.

Lemma find_first_some (old s a b : string) :
  find_first old s = Some (a, b) -> s = a ++ old ++ b /\ leftmost old a b.
Proof.
  revert a b; induction s as [|c s IH]; intros a b; rewrite find_first_eq.
  - destruct (prefix old "") eqn:Hp; [|discriminate].
    intros E; inversion E; subst; clear E. now apply find_first_here.
  - destruct (prefix old (String c s)) eqn:Hp.
    + intros E; inversion E; subst; clear E. now apply find_first_here.
    + destruct (find_first old s) as [[a' b']|] eqn:Hf; [|discriminate].
      intros E; inversion E; subst; clear E.
      destruct (IH _ _ eq_refl) as [-> Hl]. split; [reflexivity|].
      intros a1 b1 E1. destruct a1 as [|c1 a1]; simpl in E1.
      * exfalso. now apply (prefix_false_no_head _ _ Hp b1).
      * inversion E1; subst. simpl. apply le_n_S. now apply (Hl a1 b1).
Qed.

(** [replace_from] meets the spec's reading of "every occurrence replaced". *)
Lemma replace_from_Replaced (old new s : string) :
  old <> "" -> Replaced old new s (replace_from 0 old new s).
Proof.
  intros Hne.
  remember (String.length s) as n eqn:Hn.
  revert s Hn; induction n as [n IH] using lt_wf_ind; intros s Hn.
  destruct (find_first old s) as [[a b]|] eqn:Hf.
  - apply find_first_some in Hf as [-> Hl].
    rewrite replace_from_leftmost by assumption.
    apply Replaced_first; [exact Hl|].
    apply (IH (String.length b)); [|reflexivity].
    subst n. rewrite !length_append.
    destruct old; [congruence | simpl; lia].
  - apply find_first_none in Hf.
    rewrite replace_from_absent by exact Hf.
    now apply Replaced_none.
Qed.

Lemma str_replace_Replaced (old new s : string) :
  old <> "" -> Replaced old new s (str_replace old new s).
Proof.
  intros Hne. unfold str_replace.
  destruct (String.eqb_spec old ""); [contradiction|].
  now apply replace_from_Replaced.
Qed.

Lemma str_replace_absent (old new s : string) :
  old <> "" -> ~ occurs old s -> str_replace old new s = s.
Proof.
  intros Hne H. unfold str_replace.
  destruct (String.eqb_spec old ""); [contradiction|].
  now apply replace_from_absent.
Qed.

Lemma append_inj_length (a a' x x' : string) :
  a ++ x = a' ++ x' -> String.length a = String.length a' ->
  a = a' /\ x = x'.
Proof.
  revert a'; induction a as [|c a IH]; intros [|c' a'] E L;
    simpl in *; try discriminate.
  - now split.
  - inversion E; subst. destruct (IH a') as [-> ->]; [assumption | lia |].
    now split.
Qed.

Lemma leftmost_unique (old a b a' b' : string) :
  leftmost old a b -> leftmost old a' b' ->
  a ++ old ++ b = a' ++ old ++ b' -> a = a' /\ b = b'.
Proof.
  intros H H' E.
  pose proof (H a' b' E) as L1. pose proof (H' a b (eq_sym E)) as L2.
  destruct (append_inj_length _ _ _ _ E) as [-> E2]; [lia|].
  destruct (append_inj_length _ _ _ _ E2 eq_refl) as [_ ->]. now split.
Qed.

(** The relation determines the result: there is one way to replace every
    occurrence. *)
Lemma Replaced_functional (old new s r1 r2 : string) :
  Replaced old new s r1 -> Replaced old new s r2 -> r1 = r2.
Proof.
  intros H1; revert r2.
  induction H1 as [s Hno | a b b1 Hl Hb IH]; intros r2 H2.
  - inversion H2 as [s' Hno' | a' b' b2 Hl' Hb' E]; subst; [reflexivity|].
    exfalso. apply Hno. now exists a', b'.
  - remember (a ++ old ++ b) as s eqn:Es.
    destruct H2 as [s Hno' | a' b' b2 Hl' Hb'].
    + exfalso. apply Hno'. exists a, b. exact Es.
    + destruct (leftmost_unique old a b a' b' Hl Hl' (eq_sym Es)) as [<- <-].
      now rewrite (IH b2 Hb').
Qed.

Lemma str_replace_unique (old new s r : string) :
  old <> "" -> (Replaced old new s r <-> r = str_replace old new s).
Proof.
  intros Hne. split.
  - intros H. apply (Replaced_functional old new s); [exact H|].
    now apply str_replace_Replaced.
  - intros ->. now apply str_replace_Replaced.
Qed.

Lemma str_replace_empty (old new : string) :
  old <> "" -> str_replace old new "" = "".
Proof.
  intros Hne. unfold str_replace.
  now destruct (String.eqb_spec old "").
Qed.

End Replace.

(** * How the methods run *)

Section Running.

Variable w : World.

Lemma ensure_configs_loaded_run (p : Process) :
  ensure_configs_loaded p =
  if truthy (configs (self p)) then (Ok tt, p) else (Raise NotLoadedError, p).
Proof.
  unfold ensure_configs_loaded, bind, get_self, raise, ret.
  now destruct (truthy (configs (self p))).
Qed.

Lemma get_machine_config_run (p : Process) (d : dict) (name : string) :
  configs (self p) = PDict d ->
  get_machine_config name p =
  if truthy (dict_get d name PNone)
  then (Ok (dict_get d name PNone), p)
  else (Raise (UnknownProfileError name), p).
Proof.
  intros Hd. unfold get_machine_config, bind, get_self, call, raise, ret.
  rewrite Hd. simpl. now destruct (truthy (dict_get d name PNone)).
Qed.

Lemma validate_attributes_run (p : Process) :
  validate_attributes p =
  if py_all [endpoint_url (self p); aws_access_key_id (self p);
             aws_secret_access_key (self p)]
  then (Ok tt, p) else (Raise MissingAttributesError, p).
Proof.
  unfold validate_attributes, bind, get_self, raise, ret.
  now destruct (py_all _).
Qed.

Lemma set_connection_attributes_run (attrs : dict) (p : Process) :
  set_connection_attributes (PDict attrs) p =
  validate_attributes (mkProcess (connection_of attrs (self p)) (stdout p)).
Proof. reflexivity. Qed.

Lemma unknown_profile_falsy (d : dict) (name : string) :
  unknown_profile d name <-> truthy (dict_get d name PNone) = false.
Proof.
  unfold unknown_profile, dict_get. split.
  - intros [-> | (v & -> & Hv)]; [reflexivity | exact Hv].
  - destruct (dict_lookup d name) as [v|]; [right; now exists v | now left].
Qed.

Lemma absent_or_falsy_get (attrs : dict) (k : string) :
  absent_or_falsy attrs k <-> truthy (dict_get attrs k PNone) = false.
Proof. apply unknown_profile_falsy. Qed.

Lemma required_missing_fails_all (attrs : dict) :
  (exists k, In k required_attributes /\ absent_or_falsy attrs k) <->
  py_all [dict_get attrs "endpoint_url" PNone;
          dict_get attrs "aws_access_key_id" PNone;
          dict_get attrs "aws_secret_access_key" PNone] = false.
Proof.
  unfold py_all, required_attributes. cbn [forallb In]. split.
  - intros (k & Hin & Hk). apply absent_or_falsy_get in Hk.
    destruct Hin as [<- | [<- | [<- | []]]]; rewrite Hk;
      rewrite ?andb_false_r; reflexivity.
  - intros H.
    destruct (truthy (dict_get attrs "endpoint_url" PNone)) eqn:H1;
      [|exists "endpoint_url"; split; [now left | now apply absent_or_falsy_get]].
    destruct (truthy (dict_get attrs "aws_access_key_id" PNone)) eqn:H2;
      [|exists "aws_access_key_id"; split;
        [right; now left | now apply absent_or_falsy_get]].
    destruct (truthy (dict_get attrs "aws_secret_access_key" PNone)) eqn:H3;
      [discriminate|].
    exists "aws_secret_access_key"; split;
      [right; right; now left | now apply absent_or_falsy_get].
Qed.

Lemma lookup_some_nonempty (d : dict) (k : string) (v : pyval) :
  dict_lookup d k = Some v -> truthy (PDict d) = true.
Proof. now destruct d. Qed.

Lemma truthy_str (s : string) : truthy (PStr s) = false <-> s = "".
Proof.
  simpl. destruct (String.eqb_spec s ""); simpl; split; intros; congruence.
Qed.

Lemma get_mac_ip_resolved (p : Process) (mac : string) :
  gethostbyname w MAC_HOSTNAME = Ok mac ->
  get_mac_ip w p = (Ok (Some mac), p).
Proof.
  intros H. unfold get_mac_ip, try_except, bind, call, ret. now rewrite H.
Qed.

End Running.

(** * Endpoint adjustment *)

Section Adjustment.

Variable w : World.

(** When both lookups succeed, [adjust_endpoint_ip] is one test and one
    replacement. *)
Lemma adjust_endpoint_ip_resolved (p : Process) (mac cur : string) :
  gethostbyname w MAC_HOSTNAME = Ok mac ->
  gethostbyname w (gethostname w) = Ok cur ->
  adjust_endpoint_ip w p =
  if negb (mac =? "") && negb (cur =? mac) && truthy (endpoint_url (self p))
  then
    match py_replace (endpoint_url (self p)) mac cur with
    | Ok url =>
        (Ok tt,
         mkProcess (set_endpoint_url (PStr url) (self p))
           (stdout p ++
            ["Endpoint URL updated to current IP (" ++ cur ++ "): " ++ url]))
    | Raise e => (Raise e, p)
    end
  else (Ok tt, p).
Proof.
  intros Hmac Hcur. unfold adjust_endpoint_ip, bind at 1.
  rewrite (get_mac_ip_resolved w p mac Hmac).
  unfold bind, call, get_self, ret, modify_self, print. rewrite Hcur.
  cbn [self stdout].
  destruct (negb (mac =? "") && negb (cur =? mac) && truthy (endpoint_url (self p)));
    [|reflexivity].
  now destruct (py_replace (endpoint_url (self p)) mac cur).
Qed.

(** When the reference host does not resolve, the failure is printed and the
    outcome is that of the current host's lookup. *)
Lemma adjust_endpoint_ip_unresolved (p : Process) (msg : string) :
  gethostbyname w MAC_HOSTNAME = Raise (gaierror msg) ->
  adjust_endpoint_ip w p =
  let p' := mkProcess (self p)
              (stdout p ++ ["Unable to resolve the Mac's IP. Ensure the hostname is correct and reachable."]) in
  match gethostbyname w (gethostname w) with
  | Ok _ => (Ok tt, p')
  | Raise e => (Raise e, p')
  end.
Proof.
  intros Hmac.
  cbv [adjust_endpoint_ip get_mac_ip try_except bind call ret print get_self].
  rewrite Hmac. cbn [self stdout].
  now destruct (gethostbyname w (gethostname w)).
Qed.

Lemma set_endpoint_url_same (o : MinioConfig) :
  set_endpoint_url (endpoint_url o) o = o.
Proof. now destruct o. Qed.

(** C2: when the reference host and the current host both resolve, to
    different addresses, endpoint adjustment succeeds and the resolver's
    [endpoint_url] is then the endpoint string with every literal occurrence
    of the reference IP replaced by the current IP, the other fields as they
    were; when the reference IP does not occur in the endpoint, the endpoint
    and the whole resolver are as they were. *)
Theorem adjust_endpoint_ip_replaces_reference_ip
    (p : Process) (url mac cur : string) :
  endpoint_url (self p) = PStr url ->
  gethostbyname w MAC_HOSTNAME = Ok mac ->
  gethostbyname w (gethostname w) = Ok cur ->
  mac <> "" -> mac <> cur ->
  let r := adjust_endpoint_ip w p in
  fst r = Ok tt /\
  endpoint_url (self (snd r)) = PStr (str_replace mac cur url) /\
  same_but_endpoint (self p) (self (snd r)) /\
  self (snd r) = set_endpoint_url (PStr (str_replace mac cur url)) (self p) /\
  (forall url', Replaced mac cur url url' <-> url' = str_replace mac cur url) /\
  (~ occurs mac url ->
   endpoint_url (self (snd r)) = PStr url /\ self (snd r) = self p).
Proof.
  intros Hurl Hmac Hcur Hne Hdiff r.
  assert (Hkeep : ~ occurs mac url -> str_replace mac cur url = url)
    by (now apply str_replace_absent).
  assert (Hrel : forall url', Replaced mac cur url url' <->
                              url' = str_replace mac cur url)
    by (intros url'; now apply str_replace_unique).
  subst r. rewrite (adjust_endpoint_ip_resolved p mac cur Hmac Hcur), Hurl.
  destruct (String.eqb_spec mac ""); [contradiction|].
  destruct (String.eqb_spec cur mac); [congruence|].
  cbn [negb andb py_replace truthy].
  destruct (String.eqb_spec url "") as [->|Hu]; cbn [negb fst snd self].
  - split; [reflexivity|].
    split; [now rewrite Hurl, str_replace_empty|].
    split; [repeat split|].
    split; [|split; [exact Hrel | intros _; now split]].
    rewrite str_replace_empty by assumption.
    rewrite <- Hurl. symmetry. apply set_endpoint_url_same.
  - split; [reflexivity|].
    split; [reflexivity|].
    split; [repeat split|].
    split; [reflexivity|]. split; [exact Hrel|].
    intros Hno. rewrite (Hkeep Hno). split; [reflexivity|].
    rewrite <- Hurl. apply set_endpoint_url_same.
Qed.

(** C6: when the reference host and the current host resolve to the same
    address, endpoint adjustment returns and changes nothing: the endpoint
    after it is the endpoint before it. *)
Theorem adjust_endpoint_ip_same_address (p : Process) (ip : string) :
  gethostbyname w MAC_HOSTNAME = Ok ip ->
  gethostbyname w (gethostname w) = Ok ip ->
  adjust_endpoint_ip w p = (Ok tt, p).
Proof.
  intros Hmac Hcur. rewrite (adjust_endpoint_ip_resolved p ip ip Hmac Hcur).
  rewrite String.eqb_refl. cbn [negb andb]. now rewrite andb_false_r.
Qed.

(** C7: when the lookup of the reference host fails, endpoint adjustment
    leaves the resolver untouched and raises nothing of its own: it returns
    when the current host resolves, and the only exception it can raise is
    the one of the current host's lookup. *)
Theorem adjust_endpoint_ip_reference_unresolved (p : Process) (msg : string) :
  gethostbyname w MAC_HOSTNAME = Raise (gaierror msg) ->
  self (snd (adjust_endpoint_ip w p)) = self p /\
  fst (adjust_endpoint_ip w p) =
    match gethostbyname w (gethostname w) with
    | Ok _ => Ok tt
    | Raise e => Raise e
    end.
Proof.
  intros Hmac. rewrite (adjust_endpoint_ip_unresolved p msg Hmac). cbv zeta.
  now destruct (gethostbyname w (gethostname w)).
Qed.

End Adjustment.

(** * Profile selection *)

Section Selection.

Variable w : World.

(** Selection of a profile that is a non-empty attribute object: the
    attributes are stored, then validated, then the endpoint is adjusted. *)
Lemma select_machine_run (p : Process) (d attrs : dict) (name : string) :
  configs (self p) = PDict d ->
  dict_lookup d name = Some (PDict attrs) ->
  attrs <> [] ->
  select_machine w name p =
  let p1 := mkProcess (connection_of attrs (self p)) (stdout p) in
  if py_all [dict_get attrs "endpoint_url" PNone;
             dict_get attrs "aws_access_key_id" PNone;
             dict_get attrs "aws_secret_access_key" PNone]
  then adjust_endpoint_ip w p1
  else (Raise MissingAttributesError, p1).
Proof.
  intros Hd Hl Hne. unfold select_machine, bind at 1.
  rewrite ensure_configs_loaded_run, Hd, (lookup_some_nonempty _ _ _ Hl).
  unfold bind at 1. rewrite (get_machine_config_run p d name Hd).
  unfold dict_get at 1 2. rewrite Hl.
  destruct attrs as [|kv attrs]; [congruence|]. cbn [truthy].
  unfold bind at 1. rewrite set_connection_attributes_run, validate_attributes_run.
  cbn [self connection_of endpoint_url aws_access_key_id aws_secret_access_key].
  now destruct (py_all _).
Qed.

(** C8: while no document has been loaded ([configs] is still [None]),
    selecting any profile raises the not-loaded error and changes nothing. *)
Theorem select_machine_before_load (p : Process) (name : string) :
  configs (self p) = PNone ->
  select_machine w name p = (Raise NotLoadedError, p).
Proof.
  intros H. unfold select_machine, bind at 1.
  now rewrite ensure_configs_loaded_run, H.
Qed.

(** C4, amended: on a loaded document with at least one profile, selecting a
    name that is absent, or whose value is falsy, raises the unknown-profile
    error and changes nothing. *)
Theorem select_machine_unknown_profile (p : Process) (d : dict) (name : string) :
  configs (self p) = PDict d ->
  d <> [] ->
  unknown_profile d name ->
  select_machine w name p = (Raise (UnknownProfileError name), p).
Proof.
  intros Hd Hne Hu. apply unknown_profile_falsy in Hu.
  unfold select_machine, bind at 1.
  rewrite ensure_configs_loaded_run, Hd.
  destruct d as [|kv d]; [congruence|]. cbn [truthy].
  unfold bind at 1. now rewrite (get_machine_config_run p _ name Hd), Hu.
Qed.

(** C5, amended: on a loaded document, selecting a present profile that is a
    non-empty attribute object in which one of the three required attributes
    is absent or falsy raises the missing-attributes error. *)
Theorem select_machine_missing_attribute
    (p : Process) (d attrs : dict) (name : string) :
  configs (self p) = PDict d ->
  dict_lookup d name = Some (PDict attrs) ->
  attrs <> [] ->
  (exists k, In k required_attributes /\ absent_or_falsy attrs k) ->
  fst (select_machine w name p) = Raise MissingAttributesError.
Proof.
  intros Hd Hl Hne Hmiss. apply required_missing_fails_all in Hmiss.
  rewrite (select_machine_run p d attrs name Hd Hl Hne). cbv zeta.
  now rewrite Hmiss.
Qed.

(** C9: selection is not atomic.  For a present profile that lacks a
    required attribute, once [select_machine] has raised the
    missing-attributes error the five connection fields hold what the failing
    profile gave ([None] for an absent required key, the default for an
    absent optional key), whatever they held before; and a non-empty such
    profile does raise that error. *)
Theorem select_machine_not_atomic
    (p : Process) (d attrs : dict) (name : string) :
  configs (self p) = PDict d ->
  dict_lookup d name = Some (PDict attrs) ->
  (exists k, In k required_attributes /\ absent_or_falsy attrs k) ->
  let r := select_machine w name p in
  (attrs <> [] -> fst r = Raise MissingAttributesError) /\
  (fst r = Raise MissingAttributesError ->
   self (snd r) = connection_of attrs (self p) /\
   endpoint_url (self (snd r)) =
     match dict_lookup attrs "endpoint_url" with Some v => v | None => PNone end /\
   aws_access_key_id (self (snd r)) =
     match dict_lookup attrs "aws_access_key_id" with Some v => v | None => PNone end /\
   aws_secret_access_key (self (snd r)) =
     match dict_lookup attrs "aws_secret_access_key" with Some v => v | None => PNone end /\
   region_name (self (snd r)) =
     match dict_lookup attrs "region_name" with
     | Some v => v | None => PStr "us-east-1" end /\
   signature_version (self (snd r)) =
     match dict_lookup attrs "signature_version" with
     | Some v => v | None => PStr "s3v4" end).
Proof.
  intros Hd Hl Hmiss r. pose proof Hmiss as Hall.
  apply required_missing_fails_all in Hall.
  assert (Hstate : fst r = Raise MissingAttributesError ->
                   self (snd r) = connection_of attrs (self p)).
  { subst r. destruct attrs as [|kv attrs].
    - unfold select_machine, bind at 1.
      rewrite ensure_configs_loaded_run, Hd, (lookup_some_nonempty _ _ _ Hl).
      unfold bind at 1. rewrite (get_machine_config_run p d name Hd).
      unfold dict_get at 1. rewrite Hl. cbn. discriminate.
    - rewrite (select_machine_run p d (kv :: attrs) name Hd Hl) by discriminate.
      cbv zeta. rewrite Hall. reflexivity. }
  split.
  - intros Hne. subst r.
    rewrite (select_machine_run p d attrs name Hd Hl Hne). cbv zeta.
    now rewrite Hall.
  - intros Hr. rewrite (Hstate Hr). repeat split.
Qed.

End Selection.

Section SelectionOfCompleteProfile.

Variable w : World.

(** C3, amended: on a loaded document, for a present profile whose three
    required attributes are non-empty strings, and when the current host
    resolves (the reference host resolving or failing with [gaierror]),
    [select_machine] returns; the two keys are the profile's, the region and
    the signature version are the profile's or, when the profile omits them,
    ["us-east-1"] and ["s3v4"]; the endpoint is the profile's after endpoint
    adjustment, which is the profile's own whenever the reference host is
    unresolved, resolves to the current address, or its IP does not occur in
    the endpoint. *)
Theorem select_machine_resolves_profile
    (p : Process) (d attrs : dict) (name url key secret cur : string) :
  configs (self p) = PDict d ->
  dict_lookup d name = Some (PDict attrs) ->
  dict_lookup attrs "endpoint_url" = Some (PStr url) -> url <> "" ->
  dict_lookup attrs "aws_access_key_id" = Some (PStr key) -> key <> "" ->
  dict_lookup attrs "aws_secret_access_key" = Some (PStr secret) -> secret <> "" ->
  gethostbyname w (gethostname w) = Ok cur ->
  (forall e, gethostbyname w MAC_HOSTNAME = Raise e -> exists msg, e = gaierror msg) ->
  let r := select_machine w name p in
  let o := self (snd r) in
  fst r = Ok tt /\
  endpoint_url o = PStr (adjusted_endpoint (gethostbyname w MAC_HOSTNAME) cur url) /\
  aws_access_key_id o = PStr key /\
  aws_secret_access_key o = PStr secret /\
  (forall v, dict_lookup attrs "region_name" = Some v -> region_name o = v) /\
  (dict_lookup attrs "region_name" = None -> region_name o = PStr "us-east-1") /\
  (forall v, dict_lookup attrs "signature_version" = Some v -> signature_version o = v) /\
  (dict_lookup attrs "signature_version" = None -> signature_version o = PStr "s3v4") /\
  ((forall mac, gethostbyname w MAC_HOSTNAME = Ok mac -> mac = cur \/ ~ occurs mac url) ->
   endpoint_url o = PStr url).
Proof.
  intros Hd Hl Hu Hune Hk Hkne Hs Hsne Hcur Hgai r o.
  assert (Hattrs : attrs <> []) by (intros ->; discriminate).
  assert (Hall : py_all [dict_get attrs "endpoint_url" PNone;
                         dict_get attrs "aws_access_key_id" PNone;
                         dict_get attrs "aws_secret_access_key" PNone] = true).
  { unfold py_all, dict_get. rewrite Hu, Hk, Hs. cbn [forallb truthy].
    destruct (String.eqb_spec url ""); [contradiction|].
    destruct (String.eqb_spec key ""); [contradiction|].
    destruct (String.eqb_spec secret ""); [contradiction|]. reflexivity. }
  pose proof (select_machine_run w p d attrs name Hd Hl Hattrs) as Hrun.
  cbv zeta in Hrun. rewrite Hall in Hrun.
  set (p1 := mkProcess (connection_of attrs (self p)) (stdout p)) in *.
  assert (Hp1 : endpoint_url (self p1) = PStr url)
    by (unfold p1; cbn; unfold dict_get; now rewrite Hu).
  assert (Hother : forall q, self q = self p1 \/
                             self q = set_endpoint_url (PStr (str_replace
                               match gethostbyname w MAC_HOSTNAME with
                               | Ok mac => mac | Raise _ => "" end cur url))
                               (self p1) ->
            aws_access_key_id (self q) = PStr key /\
            aws_secret_access_key (self q) = PStr secret /\
            region_name (self q) = dict_get attrs "region_name" (PStr "us-east-1") /\
            signature_version (self q) = dict_get attrs "signature_version" (PStr "s3v4")).
  { intros q [-> | ->]; unfold p1; cbn; unfold dict_get at 1 2;
      rewrite Hk, Hs; repeat split. }
  assert (Hmain : fst r = Ok tt /\
            endpoint_url o = PStr (adjusted_endpoint (gethostbyname w MAC_HOSTNAME) cur url) /\
            (self (snd r) = self p1 \/
             self (snd r) = set_endpoint_url (PStr (str_replace
                               match gethostbyname w MAC_HOSTNAME with
                               | Ok mac => mac | Raise _ => "" end cur url))
                               (self p1))).
  { subst o r. rewrite Hrun.
    destruct (gethostbyname w MAC_HOSTNAME) as [mac|e] eqn:Hmac.
    - rewrite (adjust_endpoint_ip_resolved w p1 mac cur Hmac Hcur), Hp1.
      unfold adjusted_endpoint.
      destruct (String.eqb_spec mac "") as [->|Hm]; cbn [negb andb orb].
      + repeat split; [assumption | now left].
      + destruct (String.eqb_spec cur mac) as [->|Hc]; cbn [negb andb orb].
        * repeat split; [assumption | now left].
        * cbn [truthy]. destruct (String.eqb_spec url ""); [contradiction|].
          cbn [negb py_replace fst snd self]. repeat split. now right.
    - destruct (Hgai e eq_refl) as [msg ->].
      rewrite (adjust_endpoint_ip_unresolved w p1 msg Hmac), Hcur.
      unfold adjusted_endpoint. cbn [fst snd self].
      repeat split; [assumption | now left]. }
  destruct Hmain as (Hok & Hend & Hself).
  destruct (Hother (snd r) Hself) as (Ha & Hb & Hc & Hdv).
  fold o in Ha, Hb, Hc, Hdv.
  repeat split; try assumption.
  - intros v Hv. rewrite Hc. unfold dict_get. now rewrite Hv.
  - intros Hv. rewrite Hc. unfold dict_get. now rewrite Hv.
  - intros v Hv. rewrite Hdv. unfold dict_get. now rewrite Hv.
  - intros Hv. rewrite Hdv. unfold dict_get. now rewrite Hv.
  - intros Hsame. rewrite Hend. f_equal. unfold adjusted_endpoint.
    destruct (gethostbyname w MAC_HOSTNAME) as [mac|e]; [|reflexivity].
    destruct (String.eqb_spec mac "") as [->|Hm]; [reflexivity|].
    destruct (String.eqb_spec cur mac) as [->|Hc']; [reflexivity|].
    cbn [orb]. destruct (Hsame mac eq_refl) as [-> | Hno]; [congruence|].
    now apply str_replace_absent.
Qed.

End SelectionOfCompleteProfile.

(** * Loading *)

Section Loading.

Variable w : World.

Lemma print_files_run (files : list Path) (idx : Z) (p : Process) :
  fst (print_files idx files p) = Ok tt /\
  self (snd (print_files idx files p)) = self p.
Proof.
  revert idx p; induction files as [|file rest IH]; intros idx p.
  - now split.
  - cbn [print_files]. unfold bind at 1, print at 1.
    destruct (IH (idx + 1)%Z
                (mkProcess (self p) (stdout p ++ [str_of_int idx ++ ": " ++ file])))
      as [H1 H2].
    split; [exact H1 | exact H2].
Qed.

(** Choosing the file never writes to the resolver. *)
Lemma get_valid_config_path_self (p : Process) :
  self (snd (get_valid_config_path w p)) = self p.
Proof.
  unfold get_valid_config_path, bind at 1, get_self at 1.
  destruct (path_exists w (config_file_path (self p))); [reflexivity|].
  unfold prompt_for_config_file, bind at 1, get_self at 1.
  destruct (glob_json w (path_parent w (config_file_path (self p))))
    as [|f fs] eqn:Hg; [reflexivity|].
  unfold bind at 1, print at 1. unfold bind at 1.
  match goal with |- context [print_files 1 (f :: fs) ?q] =>
    destruct (print_files_run (f :: fs) 1 q) as [Hr Hs];
    destruct (print_files 1 (f :: fs) q) as [[[]|e] q'] end;
    cbn [fst snd self] in *; [|discriminate].
  unfold bind, call, ret, raise.
  destruct (input w _); [|exact Hs].
  destruct (int_of_str w _); [|exact Hs].
  destruct (_ && _)%bool; [|exact Hs].
  destruct (nth_error _ _); exact Hs.
Qed.

(** [load_config] once the file is chosen. *)
Lemma load_config_run (p p1 : Process) (path : Path) :
  get_valid_config_path w p = (Ok path, p1) ->
  load_config w p =
  match open_text w path with
  | Raise e =>
      (Raise (reported path e),
       mkProcess (set_config_file_path path (self p1)) (stdout p1))
  | Ok text =>
      let p2 := mkProcess (set_config_file_path path (self p1))
                  (stdout p1 ++ ["Loaded configuration from: " ++ path]) in
      match json_load w text with
      | Ok v => (Ok tt, mkProcess (set_configs v (self p2)) (stdout p2))
      | Raise e => (Raise (reported path e), p2)
      end
  end.
Proof.
  intros Hpath. unfold load_config, bind at 1. rewrite Hpath.
  cbv [bind modify_self get_self read_config try_except call print raise].
  cbn [self stdout config_file_path set_config_file_path].
  destruct (open_text w path) as [text|e]; [|now destruct e].
  destruct (json_load w text) as [v|e]; [reflexivity | now destruct e].
Qed.

(** A failed load, whatever failed, leaves [configs] as it was. *)
Lemma load_config_failure_keeps_configs (p : Process) (e : exn) :
  fst (load_config w p) = Raise e ->
  configs (self (snd (load_config w p))) = configs (self p).
Proof.
  pose proof (get_valid_config_path_self p) as Hself.
  destruct (get_valid_config_path w p) as [[path|e0] p1] eqn:Hpath;
    cbn [snd] in Hself.
  - rewrite (load_config_run p p1 path Hpath).
    destruct (open_text w path) as [text|e1]; [|now rewrite <- Hself].
    cbv zeta. destruct (json_load w text) as [v|e1]; [discriminate|].
    intros _. now rewrite <- Hself.
  - intros _. unfold load_config, bind at 1. rewrite Hpath. now rewrite <- Hself.
Qed.

Lemma ConfigFormatError_is (path : Path) (msg : string) :
  is_ConfigFormatError (ConfigFormatError path msg) = true.
Proof.
  unfold is_ConfigFormatError, ConfigFormatError.
  apply prefix_true_iff. now exists (path ++ "': " ++ msg).
Qed.

(** C1, amended: [load_config] fails with the format error exactly when the
    content of the file is not valid JSON ([json.load] raises
    [JSONDecodeError]); valid JSON of any shape is loaded and becomes
    [configs]; and after a failed load, whatever failed, [configs] is what it
    was before the call. *)
Theorem load_config_format_error (p : Process) :
  (forall e, fst (load_config w p) = Raise e ->
     configs (self (snd (load_config w p))) = configs (self p)) /\
  (forall path p1 text,
     get_valid_config_path w p = (Ok path, p1) ->
     open_text w path = Ok text ->
     (forall e, json_load w text = Raise e -> is_ConfigFormatError e = false) ->
     ((exists e, fst (load_config w p) = Raise e /\ is_ConfigFormatError e = true)
      <-> (exists msg, json_load w text = Raise (JSONDecodeError msg))) /\
     (forall msg, json_load w text = Raise (JSONDecodeError msg) ->
        fst (load_config w p) = Raise (ConfigFormatError path msg)) /\
     (forall v, json_load w text = Ok v ->
        fst (load_config w p) = Ok tt /\
        configs (self (snd (load_config w p))) = v)).
Proof.
  split; [exact (load_config_failure_keeps_configs p)|].
  intros path p1 text Hpath Hopen Hlib.
  rewrite (load_config_run p p1 path Hpath), Hopen. cbv zeta.
  destruct (json_load w text) as [v|e] eqn:Hj.
  - split; [split | split].
    + intros (e & He & _). discriminate.
    + intros (msg & Hm). discriminate.
    + intros msg Hm. discriminate.
    + intros v' Hv. inversion Hv; subst. now split.
  - specialize (Hlib e eq_refl). split; [split | split].
    + intros (e' & He' & Hfmt).
      destruct e; cbn [fst reported] in He'; inversion He'; subst;
        try congruence; now eexists.
    + intros (msg & Hm). inversion Hm; subst. eexists; split;
        [reflexivity | apply ConfigFormatError_is].
    + intros msg Hm. now inversion Hm.
    + intros v Hv. discriminate.
Qed.

(** C10: once [load_config] has succeeded on a document that is the empty
    object, selecting any profile and listing the profiles both raise the
    not-loaded error and leave the resolver as it is, so every later request
    fails the same way. *)
Theorem empty_document_counts_as_not_loaded
    (p p1 : Process) (path : Path) (text : string) :
  get_valid_config_path w p = (Ok path, p1) ->
  open_text w path = Ok text ->
  json_load w text = Ok (PDict []) ->
  let p' := snd (load_config w p) in
  fst (load_config w p) = Ok tt /\
  configs (self p') = PDict [] /\
  (forall name, select_machine w name p' = (Raise NotLoadedError, p')) /\
  list_machines p' = (Raise NotLoadedError, p') /\
  (forall rs, Forall (fun f => f = Some NotLoadedError) (run_requests w rs p')).
Proof.
  intros Hpath Hopen Hj p'.
  assert (Hload : fst (load_config w p) = Ok tt /\ configs (self p') = PDict []).
  { subst p'. rewrite (load_config_run p p1 path Hpath), Hopen. cbv zeta.
    now rewrite Hj. }
  destruct Hload as [Hok Hcfg].
  assert (Hsel : forall name, select_machine w name p' = (Raise NotLoadedError, p')).
  { intros name. unfold select_machine, bind at 1.
    now rewrite ensure_configs_loaded_run, Hcfg. }
  assert (Hlist : list_machines p' = (Raise NotLoadedError, p')).
  { unfold list_machines, bind at 1.
    now rewrite ensure_configs_loaded_run, Hcfg. }
  repeat split; try assumption.
  induction rs as [|[name|] rs IH]; cbn [run_requests].
  - constructor.
  - rewrite Hsel. now constructor.
  - rewrite Hlist. now constructor.
Qed.

End Loading.

(** * The theorems at concrete inputs *)

Section Examples.

(** [str.replace] on the inputs Python's documentation and the spec use. *)
Example replace_endpoint :
  str_replace "10.0.0.5" "10.0.0.9" "http://10.0.0.5:9000" = "http://10.0.0.9:9000".
Proof. reflexivity. Qed.

Example replace_does_not_overlap : str_replace "aa" "b" "aaa" = "ba".
Proof. reflexivity. Qed.

Example replace_every_occurrence :
  str_replace "10.0.0.5" "::1" "10.0.0.5,10.0.0.50" = "::1,::10".
Proof. reflexivity. Qed.

Example replace_empty_pattern : str_replace "" "-" "abc" = "-a-b-c-".
Proof. reflexivity. Qed.

Example load_then_select :
  load_config (office mac_document_text (Ok mac_document)) fresh
    = (Ok tt, loaded mac_document) /\
  self (snd (select_machine (office mac_document_text (Ok mac_document)) "mac"
               (loaded mac_document)))
    = mkMinioConfig "/etc/minio/minio_configs.json" mac_document
        (PStr "http://10.0.0.9:9000") (PStr "minioadmin") (PStr "minio-secret")
        (PStr "us-east-1") (PStr "s3v4").
Proof. split; reflexivity. Qed.

Lemma load_config_format_error_witness :
  fst (load_config (office "{mac: " (Raise (JSONDecodeError
         "Expecting property name enclosed in double quotes: line 1 column 2 (char 1)")))
         fresh)
    = Raise (ConfigFormatError "/etc/minio/minio_configs.json"
         "Expecting property name enclosed in double quotes: line 1 column 2 (char 1)") /\
  configs (self (snd (load_config (office "{mac: " (Raise (JSONDecodeError
         "Expecting property name enclosed in double quotes: line 1 column 2 (char 1)")))
         fresh)))
    = PNone.
Proof.
  destruct (load_config_format_error
              (office "{mac: " (Raise (JSONDecodeError
                 "Expecting property name enclosed in double quotes: line 1 column 2 (char 1)")))
              fresh) as [Hkeep Hfmt].
  destruct (Hfmt "/etc/minio/minio_configs.json" fresh "{mac: " eq_refl eq_refl)
    as (_ & Hraise & _).
  - intros e He. vm_compute in He. inversion He. reflexivity.
  - split.
    + apply Hraise. reflexivity.
    + exact (Hkeep _ (Hraise _ eq_refl)).
Defined.

Lemma adjust_endpoint_ip_replaces_reference_ip_witness :
  fst (adjust_endpoint_ip (office mac_document_text (Ok mac_document))
         (connected mac_document)) = Ok tt /\
  endpoint_url (self (snd (adjust_endpoint_ip
         (office mac_document_text (Ok mac_document)) (connected mac_document))))
    = PStr "http://10.0.0.9:9000".
Proof.
  destruct (adjust_endpoint_ip_replaces_reference_ip
              (office mac_document_text (Ok mac_document)) (connected mac_document)
              "http://10.0.0.5:9000" "10.0.0.5" "10.0.0.9"
              eq_refl eq_refl eq_refl) as (Hok & Hurl & _).
  - discriminate.
  - discriminate.
  - split; [exact Hok | exact Hurl].
Defined.

Lemma adjust_endpoint_ip_same_address_witness :
  adjust_endpoint_ip (home mac_document_text (Ok mac_document))
    (connected mac_document) = (Ok tt, connected mac_document).
Proof.
  apply (adjust_endpoint_ip_same_address
           (home mac_document_text (Ok mac_document)) (connected mac_document)
           "10.0.0.5"); reflexivity.
Defined.

Lemma adjust_endpoint_ip_reference_unresolved_witness :
  self (snd (adjust_endpoint_ip (away mac_document_text (Ok mac_document))
               (connected mac_document))) = self (connected mac_document) /\
  fst (adjust_endpoint_ip (away mac_document_text (Ok mac_document))
         (connected mac_document)) = Ok tt.
Proof.
  apply (adjust_endpoint_ip_reference_unresolved
           (away mac_document_text (Ok mac_document)) (connected mac_document)
           "[Errno 8] nodename nor servname provided, or not known").
  reflexivity.
Defined.

Lemma select_machine_before_load_witness :
  select_machine (office mac_document_text (Ok mac_document)) "mac" fresh
    = (Raise NotLoadedError, fresh).
Proof.
  apply select_machine_before_load. reflexivity.
Defined.

Lemma select_machine_unknown_profile_witness :
  select_machine (office mac_document_text (Ok mac_document)) "nas"
    (loaded mac_document)
    = (Raise (UnknownProfileError "nas"), loaded mac_document).
Proof.
  apply (select_machine_unknown_profile
           (office mac_document_text (Ok mac_document)) (loaded mac_document)
           [("mac", PDict mac_profile)] "nas").
  - reflexivity.
  - discriminate.
  - left. reflexivity.
Defined.

Lemma select_machine_missing_attribute_witness :
  fst (select_machine (office keyless_document_text (Ok keyless_document)) "mac"
         (loaded keyless_document)) = Raise MissingAttributesError.
Proof.
  apply (select_machine_missing_attribute
           (office keyless_document_text (Ok keyless_document))
           (loaded keyless_document)
           [("mac", PDict [("endpoint_url", PStr "http://10.0.0.5:9000");
                           ("aws_access_key_id", PStr "minioadmin")])]
           [("endpoint_url", PStr "http://10.0.0.5:9000");
            ("aws_access_key_id", PStr "minioadmin")] "mac").
  - reflexivity.
  - reflexivity.
  - discriminate.
  - exists "aws_secret_access_key". split.
    + right. right. left. reflexivity.
    + left. reflexivity.
Defined.

Lemma select_machine_not_atomic_witness :
  fst (select_machine (office keyless_document_text (Ok keyless_document)) "mac"
         (connected keyless_document)) = Raise MissingAttributesError /\
  self (snd (select_machine (office keyless_document_text (Ok keyless_document)) "mac"
               (connected keyless_document)))
    = mkMinioConfig "/etc/minio/minio_configs.json" keyless_document
        (PStr "http://10.0.0.5:9000") (PStr "minioadmin") PNone
        (PStr "us-east-1") (PStr "s3v4").
Proof.
  destruct (select_machine_not_atomic
              (office keyless_document_text (Ok keyless_document))
              (connected keyless_document)
              [("mac", PDict [("endpoint_url", PStr "http://10.0.0.5:9000");
                              ("aws_access_key_id", PStr "minioadmin")])]
              [("endpoint_url", PStr "http://10.0.0.5:9000");
               ("aws_access_key_id", PStr "minioadmin")] "mac"
              eq_refl eq_refl) as [Hraise Hstate].
  - exists "aws_secret_access_key". split.
    + right. right. left. reflexivity.
    + left. reflexivity.
  - assert (Hr := Hraise ltac:(discriminate)).
    split; [exact Hr | exact (proj1 (Hstate Hr))].
Defined.

Lemma select_machine_resolves_profile_witness :
  fst (select_machine (office mac_document_text (Ok mac_document)) "mac"
         (loaded mac_document)) = Ok tt /\
  endpoint_url (self (snd (select_machine
         (office mac_document_text (Ok mac_document)) "mac" (loaded mac_document))))
    = PStr "http://10.0.0.9:9000" /\
  region_name (self (snd (select_machine
         (office mac_document_text (Ok mac_document)) "mac" (loaded mac_document))))
    = PStr "us-east-1".
Proof.
  destruct (select_machine_resolves_profile
              (office mac_document_text (Ok mac_document)) (loaded mac_document)
              [("mac", PDict mac_profile)] mac_profile "mac"
              "http://10.0.0.5:9000" "minioadmin" "minio-secret" "10.0.0.9"
              eq_refl eq_refl
              eq_refl ltac:(discriminate)
              eq_refl ltac:(discriminate)
              eq_refl ltac:(discriminate)
              eq_refl)
    as (Hok & Hurl & _ & _ & _ & Hregion & _).
  - intros e He. vm_compute in He. discriminate.
  - split; [exact Hok | split; [exact Hurl | exact (Hregion eq_refl)]].
Defined.

Lemma empty_document_counts_as_not_loaded_witness :
  fst (load_config (office "{}" (Ok (PDict []))) fresh) = Ok tt /\
  select_machine (office "{}" (Ok (PDict []))) "mac" (loaded (PDict []))
    = (Raise NotLoadedError, loaded (PDict [])) /\
  list_machines (loaded (PDict [])) = (Raise NotLoadedError, loaded (PDict [])).
Proof.
  destruct (empty_document_counts_as_not_loaded
              (office "{}" (Ok (PDict []))) fresh fresh
              "/etc/minio/minio_configs.json" "{}" eq_refl eq_refl eq_refl)
    as (Hok & _ & Hsel & Hlist & _).
  split; [exact Hok | split; [exact (Hsel "mac") | exact Hlist]].
Defined.

End Examples.

(** * Where the code departs from the specification *)

Section Departures.

(** C1 as stated fails: a JSON array is valid JSON but not an object of
    objects, and [load_config] accepts it and stores it in [configs]. *)
Lemma load_config_accepts_json_array :
  json_load (office "[1, 2]" (Ok (PList [PInt 1; PInt 2]))) "[1, 2]"
    = Ok (PList [PInt 1; PInt 2]) /\
  is_object_of_objects (PList [PInt 1; PInt 2]) = false /\
  load_config (office "[1, 2]" (Ok (PList [PInt 1; PInt 2]))) fresh
    = (Ok tt, loaded (PList [PInt 1; PInt 2])).
Proof. repeat split. Qed.

(** C3 as stated fails: on a machine whose address differs from the
    reference host's, the endpoint of the resolved connection is not the
    profile's; and on a machine that cannot resolve its own name the
    selection of a complete profile does not succeed. *)
Lemma select_machine_rewrites_endpoint :
  dict_lookup mac_profile "endpoint_url" = Some (PStr "http://10.0.0.5:9000") /\
  fst (select_machine (office mac_document_text (Ok mac_document)) "mac"
         (loaded mac_document)) = Ok tt /\
  endpoint_url (self (snd (select_machine
         (office mac_document_text (Ok mac_document)) "mac" (loaded mac_document))))
    = PStr "http://10.0.0.9:9000" /\
  fst (select_machine (stranded mac_document_text (Ok mac_document)) "mac"
         (loaded mac_document))
    = Raise (gaierror "[Errno 8] nodename nor servname provided, or not known").
Proof. repeat split. Qed.

(** C4 as stated fails: after the empty object has been loaded, the name
    ["mac"] is absent from the document, and selecting it raises the
    not-loaded error, not the unknown-profile error. *)
Lemma select_machine_on_empty_document :
  load_config (office "{}" (Ok (PDict []))) fresh = (Ok tt, loaded (PDict [])) /\
  dict_lookup [] "mac" = None /\
  fst (select_machine (office "{}" (Ok (PDict []))) "mac" (loaded (PDict [])))
    = Raise NotLoadedError /\
  NotLoadedError <> UnknownProfileError "mac".
Proof. repeat split. discriminate. Qed.

(** C5 as stated fails twice: a present profile that is the empty object
    lacks all three required attributes, and selecting it raises the
    unknown-profile error; a profile whose endpoint is a number, not a
    string, passes validation and is selected. *)
Lemma select_machine_without_missing_attributes_error :
  dict_lookup [("mac", PDict [])] "mac" = Some (PDict []) /\
  fst (select_machine (home hollow_document_text (Ok hollow_document)) "mac"
         (loaded hollow_document)) = Raise (UnknownProfileError "mac") /\
  UnknownProfileError "mac" <> MissingAttributesError /\
  fst (select_machine (home numeric_document_text (Ok numeric_document)) "mac"
         (loaded numeric_document)) = Ok tt /\
  endpoint_url (self (snd (select_machine
         (home numeric_document_text (Ok numeric_document)) "mac"
         (loaded numeric_document)))) = PInt 9000.
Proof. repeat split. discriminate. Qed.

End Departures.

(** * What the methods leave alone *)

Section Preservation.

Context {R : MinioConfig -> MinioConfig -> Prop} `{!PreOrder R}.

Lemma preserves_ret {A} (a : A) : preserves R (ret a).
Proof. intros p. reflexivity. Qed.

Lemma preserves_raise {A} (e : exn) : preserves R (@raise A e).
Proof. intros p. reflexivity. Qed.

Lemma preserves_call {A} (r : result A) : preserves R (call r).
Proof. intros p. reflexivity. Qed.

Lemma preserves_print (line : string) : preserves R (print line).
Proof. intros p. reflexivity. Qed.

Lemma preserves_get_self : preserves R get_self.
Proof. intros p. reflexivity. Qed.

Lemma preserves_modify_self (f : MinioConfig -> MinioConfig) :
  (forall o, R o (f o)) -> preserves R (modify_self f).
Proof. intros Hf p. apply Hf. Qed.

Lemma preserves_bind {A B} (m : M A) (k : A -> M B) :
  preserves R m -> (forall a, preserves R (k a)) -> preserves R (bind m k).
Proof.
  intros Hm Hk p. unfold bind. specialize (Hm p).
  destruct (m p) as [[a|e] p']; cbn [snd] in *; [|exact Hm].
  transitivity (self p'); [exact Hm | apply Hk].
Qed.

Lemma preserves_try_except {A} (body : M A) (handler : exn -> option (M A)) :
  preserves R body ->
  (forall e h, handler e = Some h -> preserves R h) ->
  preserves R (try_except body handler).
Proof.
  intros Hb Hh p. unfold try_except. specialize (Hb p).
  destruct (body p) as [[a|e] p']; cbn [snd] in *; [exact Hb|].
  destruct (handler e) as [h|] eqn:He; [|exact Hb].
  transitivity (self p'); [exact Hb | now apply (Hh e h)].
Qed.

Lemma preserves_print_files (files : list Path) (idx : Z) :
  preserves R (print_files idx files).
Proof.
  revert idx; induction files as [|file rest IH]; intros idx; cbn [print_files].
  - apply preserves_ret.
  - apply preserves_bind; [apply preserves_print | intros _; apply IH].
Qed.

End Preservation.

(** One step of a proof that a method stays within a relation. *)
Ltac preserve :=
  repeat first
    [ apply preserves_ret | apply preserves_raise | apply preserves_call
    | apply preserves_print | apply preserves_get_self
    | apply preserves_print_files
    | progress cbv zeta
    | apply preserves_bind; [|intro]
    | match goal with
      | |- preserves _ (if ?c then _ else _) => destruct c
      | |- preserves _ (match ?x with _ => _ end) => destruct x
      end ].

Section PreservationOfMethods.

Context {R : MinioConfig -> MinioConfig -> Prop} `{!PreOrder R}.
Variable w : World.

Lemma preserves_prompt_for_config_file : preserves R (prompt_for_config_file w).
Proof. unfold prompt_for_config_file. preserve. Qed.

Lemma preserves_get_valid_config_path : preserves R (get_valid_config_path w).
Proof.
  unfold get_valid_config_path.
  apply preserves_bind; [apply preserves_get_self | intros o].
  destruct (path_exists w (config_file_path o));
    [apply preserves_ret | apply preserves_prompt_for_config_file].
Qed.

Lemma preserves_read_config (path : Path) : preserves R (read_config w path).
Proof.
  unfold read_config. apply preserves_try_except; [preserve|].
  intros e h He. destruct e; inversion He; subst. preserve.
Qed.

Lemma preserves_ensure_configs_loaded : preserves R ensure_configs_loaded.
Proof. unfold ensure_configs_loaded. preserve. Qed.

Lemma preserves_list_machines : preserves R list_machines.
Proof.
  unfold list_machines. apply preserves_bind;
    [apply preserves_ensure_configs_loaded | intro; preserve].
Qed.

Lemma preserves_get_machine_config (name : string) :
  preserves R (get_machine_config name).
Proof. unfold get_machine_config. preserve. Qed.

Lemma preserves_validate_attributes : preserves R validate_attributes.
Proof. unfold validate_attributes. preserve. Qed.

Lemma preserves_get_mac_ip : preserves R (get_mac_ip w).
Proof.
  unfold get_mac_ip. apply preserves_try_except; [preserve|].
  intros e h He. destruct e; inversion He; subst. preserve.
Qed.

End PreservationOfMethods.

#[local] Instance same_document_preorder : PreOrder same_document.
Proof.
  split.
  - intros o. now split.
  - intros o1 o2 o3 [H1 H2] [H3 H4]. split; congruence.
Qed.

#[local] Instance same_connection_preorder : PreOrder same_connection.
Proof.
  split.
  - intros o. repeat split.
  - intros o1 o2 o3 (A1 & A2 & A3 & A4 & A5) (B1 & B2 & B3 & B4 & B5).
    repeat split; congruence.
Qed.

#[local] Instance same_but_endpoint_preorder : PreOrder same_but_endpoint.
Proof.
  split.
  - intros o. repeat split.
  - intros o1 o2 o3 (A1 & A2 & A3 & A4 & A5 & A6) (B1 & B2 & B3 & B4 & B5 & B6).
    repeat split; congruence.
Qed.

Lemma same_but_endpoint_document (o o' : MinioConfig) :
  same_but_endpoint o o' -> same_document o o'.
Proof. intros (H1 & H2 & _). now split. Qed.

Section DocumentAndConnection.

Variable w : World.

Lemma preserves_set_connection_attributes (config : pyval) :
  preserves same_document (set_connection_attributes config).
Proof.
  unfold set_connection_attributes.
  repeat (apply preserves_bind;
          [first [apply preserves_call
                 | apply preserves_modify_self; intros o; now split] | intro]).
  apply preserves_validate_attributes.
Qed.

Lemma preserves_adjust_endpoint_ip :
  preserves same_but_endpoint (adjust_endpoint_ip w).
Proof.
  unfold adjust_endpoint_ip.
  apply preserves_bind; [apply preserves_get_mac_ip | intros mac_ip].
  apply preserves_bind; [apply preserves_call | intros current_ip].
  apply preserves_bind; [apply preserves_get_self | intros o].
  destruct mac_ip as [mac|]; [|apply preserves_ret].
  destruct (_ && _); [|apply preserves_ret].
  apply preserves_bind; [apply preserves_call | intros url].
  apply preserves_bind; [|intro; apply preserves_print].
  apply preserves_modify_self. intros o'. repeat split.
Qed.

End DocumentAndConnection.

(** * Choosing and loading the file *)

Section ChoosingTheFile.

Variable w : World.

Lemma print_files_eq (files : list Path) (idx : Z) (p : Process) :
  print_files idx files p =
  (Ok tt, mkProcess (self p) (stdout p ++ numbered idx files)).
Proof.
  revert idx p; induction files as [|file rest IH]; intros idx p.
  - cbn. rewrite app_nil_r. now destruct p.
  - cbn [print_files numbered]. unfold bind at 1, print at 1.
    rewrite IH. cbn [self stdout]. now rewrite <- app_assoc.
Qed.

(** [prompt_for_config_file] once the directory offers some file: the list
    is printed, then the answer decides. *)
Lemma prompt_for_config_file_run (p : Process) (file : Path) (rest : list Path) :
  glob_json w (path_parent w (config_file_path (self p))) = file :: rest ->
  prompt_for_config_file w p =
  let files := file :: rest in
  let p' := mkProcess (self p)
              (stdout p ++
               "Default configuration file not found. Available files:"
               :: numbered 1 files) in
  match input w "Select a file by entering the corresponding number: " with
  | Raise e => (Raise e, p')
  | Ok line =>
      match int_of_str w line with
      | Raise e => (Raise e, p')
      | Ok n =>
          if ((0 <=? n - 1) && (n - 1 <? Z.of_nat (List.length files)))%Z
          then
            match nth_error files (Z.to_nat (n - 1)) with
            | Some chosen => (Ok chosen, p')
            | None =>
                (Raise (ValueError "Invalid selection. Please select a valid number from the list."), p')
            end
          else
            (Raise (ValueError "Invalid selection. Please select a valid number from the list."), p')
      end
  end.
Proof.
  intros Hg. unfold prompt_for_config_file, bind at 1, get_self at 1.
  rewrite Hg. unfold bind at 1, print at 1. unfold bind at 1.
  rewrite print_files_eq. cbn [self stdout].
  rewrite <- app_assoc. cbn [app].
  unfold bind, call, ret, raise. cbv zeta.
  destruct (input w _) as [line|e]; [|reflexivity].
  destruct (int_of_str w line) as [n|e]; [|reflexivity].
  destruct (_ && _)%bool; [|reflexivity].
  now destruct (nth_error _ _).
Qed.

Lemma in_range_iff (n : Z) (len : nat) :
  ((0 <=? n - 1) && (n - 1 <? Z.of_nat len))%Z = true <->
  (1 <= n <= Z.of_nat len)%Z.
Proof.
  rewrite andb_true_iff, Z.leb_le, Z.ltb_lt. lia.
Qed.

(** X1: when the directory offers files and the user answers with the number
    [n], [prompt_for_config_file] prints the heading and the numbered list,
    leaves the resolver alone, returns the [n]-th file offered when [n] is
    between 1 and the number of files, and raises the invalid-selection
    [ValueError] for every other [n]. *)
Theorem prompt_for_config_file_selection
    (p : Process) (files : list Path) (line : string) (n : Z) :
  glob_json w (path_parent w (config_file_path (self p))) = files ->
  files <> [] ->
  input w "Select a file by entering the corresponding number: " = Ok line ->
  int_of_str w line = Ok n ->
  let r := prompt_for_config_file w p in
  self (snd r) = self p /\
  stdout (snd r) =
    (stdout p ++
     "Default configuration file not found. Available files:" :: numbered 1 files)%list /\
  ((1 <= n <= Z.of_nat (List.length files))%Z ->
   exists chosen, nth_error files (Z.to_nat (n - 1)) = Some chosen /\
                  fst r = Ok chosen) /\
  (~ (1 <= n <= Z.of_nat (List.length files))%Z ->
   fst r = Raise (ValueError "Invalid selection. Please select a valid number from the list.")).
Proof.
  intros Hg Hne Hin Hint r. subst r.
  destruct files as [|file rest]; [congruence|].
  rewrite (prompt_for_config_file_run p file rest Hg). cbv zeta.
  rewrite Hin, Hint.
  destruct ((0 <=? n - 1) && (n - 1 <? Z.of_nat (List.length (file :: rest))))%Z
    eqn:Hr.
  - apply in_range_iff in Hr.
    destruct (nth_error (file :: rest) (Z.to_nat (n - 1))) as [chosen|] eqn:Hn.
    + split; [reflexivity|]. split; [reflexivity|]. split.
      * intros _. now exists chosen.
      * intros H. contradiction.
    + apply nth_error_None in Hn. lia.
  - assert (Hout : ~ (1 <= n <= Z.of_nat (List.length (file :: rest)))%Z).
    { intros H. apply in_range_iff in H. congruence. }
    split; [reflexivity|]. split; [reflexivity|]. split.
    + intros H. contradiction.
    + reflexivity.
Qed.

(** X2: [get_valid_config_path] returns the configured path, silently, when
    it exists; raises [FileNotFoundError], silently, when it does not and the
    directory has no JSON file; and whatever path it returns is the
    configured one or one of the JSON files of its directory. *)
Theorem get_valid_config_path_chooses_listed_file (p : Process) :
  let cfg := config_file_path (self p) in
  let offered := glob_json w (path_parent w cfg) in
  (path_exists w cfg = true -> get_valid_config_path w p = (Ok cfg, p)) /\
  (path_exists w cfg = false -> offered = [] ->
   get_valid_config_path w p =
   (Raise (FileNotFoundError
             ("No JSON configuration files found in " ++ path_parent w cfg)), p)) /\
  (forall path, fst (get_valid_config_path w p) = Ok path ->
     (path_exists w cfg = true /\ path = cfg) \/
     (path_exists w cfg = false /\ In path offered)).
Proof.
  intros cfg offered. subst cfg offered.
  unfold get_valid_config_path, bind at 1 2 3, get_self at 1 2 3.
  destruct (path_exists w (config_file_path (self p))) eqn:He.
  - split; [reflexivity|]. split; [discriminate|].
    intros path H. left. inversion H. now split.
  - split; [discriminate|]. split.
    + intros _ Hg. unfold prompt_for_config_file, bind, get_self. now rewrite Hg.
    + intros path H. right. split; [reflexivity|].
      destruct (glob_json w (path_parent w (config_file_path (self p))))
        as [|file rest] eqn:Hg.
      * unfold prompt_for_config_file, bind, get_self in H. now rewrite Hg in H.
      * rewrite (prompt_for_config_file_run p file rest Hg) in H. cbv zeta in H.
        destruct (input w _) as [line|e]; [|discriminate].
        destruct (int_of_str w line) as [n|e]; [|discriminate].
        destruct (_ && _)%bool; [|discriminate].
        destruct (nth_error _ _) as [chosen|] eqn:Hn; [|discriminate].
        inversion H; subst. now apply nth_error_In in Hn.
Qed.

(** [load_config] never writes a connection attribute. *)
Lemma preserves_load_config : preserves same_connection (load_config w).
Proof.
  unfold load_config.
  apply preserves_bind; [apply preserves_get_valid_config_path | intros path].
  apply preserves_bind;
    [apply preserves_modify_self; intros o; repeat split | intros _].
  apply preserves_bind; [apply preserves_get_self | intros o].
  apply preserves_bind; [apply preserves_read_config | intros cfg].
  apply preserves_modify_self; intros o'; repeat split.
Qed.

(** X3: [load_config], whether it returns or raises, leaves the five
    connection attributes as they were: loading another document does not
    clear a connection resolved from the previous one. *)
Theorem load_config_keeps_connection (p : Process) :
  same_connection (self p) (self (snd (load_config w p))).
Proof. apply preserves_load_config. Qed.

(** X4: when [load_config] returns, the file it chose opened and decoded, and
    the resolver holds that path and that document. *)
Theorem load_config_success (p : Process) :
  fst (load_config w p) = Ok tt ->
  exists path text doc,
    fst (get_valid_config_path w p) = Ok path /\
    open_text w path = Ok text /\
    json_load w text = Ok doc /\
    config_file_path (self (snd (load_config w p))) = path /\
    configs (self (snd (load_config w p))) = doc.
Proof.
  destruct (get_valid_config_path w p) as [[path|e] p1] eqn:Hpath.
  - rewrite (load_config_run w p p1 path Hpath).
    destruct (open_text w path) as [text|e] eqn:Ho; [|discriminate]. cbv zeta.
    destruct (json_load w text) as [doc|e] eqn:Hj; [|discriminate].
    intros _. exists path, text, doc. repeat split; assumption.
  - unfold load_config, bind at 1. rewrite Hpath. discriminate.
Qed.

(** X5: [read_config] does not touch the resolver, and it prints its
    "Loaded configuration from" line as soon as the file opens, so also when
    the content then fails to decode; when the file does not open it prints
    nothing. *)
Theorem read_config_announces_before_decoding (path : Path) (p : Process) :
  self (snd (read_config w path p)) = self p /\
  stdout (snd (read_config w path p)) =
    match open_text w path with
    | Ok _ => (stdout p ++ [("Loaded configuration from: " ++ path)%string])%list
    | Raise _ => stdout p
    end.
Proof.
  cbv [read_config try_except bind call print raise].
  destruct (open_text w path) as [text|e]; cbn [self stdout].
  - destruct (json_load w text) as [v|e]; [now split | now destruct e].
  - now destruct e.
Qed.

End ChoosingTheFile.

(** * Listing, selecting, adjusting: every case *)

Section EveryCase.

Variable w : World.

(** [adjust_endpoint_ip], by the outcome of the two lookups. *)
Lemma adjust_endpoint_ip_cases (p : Process) :
  adjust_endpoint_ip w p =
  match gethostbyname w MAC_HOSTNAME, gethostbyname w (gethostname w) with
  | Ok mac, Ok cur =>
      if negb (mac =? "") && negb (cur =? mac) && truthy (endpoint_url (self p))
      then
        match py_replace (endpoint_url (self p)) mac cur with
        | Ok url =>
            (Ok tt,
             mkProcess (set_endpoint_url (PStr url) (self p))
               (stdout p ++
                ["Endpoint URL updated to current IP (" ++ cur ++ "): " ++ url]))
        | Raise e => (Raise e, p)
        end
      else (Ok tt, p)
  | Ok _, Raise e => (Raise e, p)
  | Raise (gaierror _), cur =>
      let p' := mkProcess (self p)
                  (stdout p ++ ["Unable to resolve the Mac's IP. Ensure the hostname is correct and reachable."]) in
      match cur with
      | Ok _ => (Ok tt, p')
      | Raise e => (Raise e, p')
      end
  | Raise e, _ => (Raise e, p)
  end.
Proof.
  destruct (gethostbyname w MAC_HOSTNAME) as [mac|e] eqn:Hmac.
  - destruct (gethostbyname w (gethostname w)) as [cur|e] eqn:Hcur.
    + apply (adjust_endpoint_ip_resolved w p mac cur Hmac Hcur).
    + unfold adjust_endpoint_ip, bind at 1.
      rewrite (get_mac_ip_resolved w p mac Hmac).
      unfold bind, call. now rewrite Hcur.
  - cbv [adjust_endpoint_ip get_mac_ip try_except bind call ret].
    rewrite Hmac. now destruct e.
Qed.

(** What [adjust_endpoint_ip] returns and makes of the resolver does not
    depend on what was printed before. *)
Lemma adjust_endpoint_ip_stdout_irrelevant (p q : Process) :
  self p = self q ->
  fst (adjust_endpoint_ip w p) = fst (adjust_endpoint_ip w q) /\
  self (snd (adjust_endpoint_ip w p)) = self (snd (adjust_endpoint_ip w q)).
Proof.
  intros Hpq. rewrite !adjust_endpoint_ip_cases, Hpq.
  destruct (gethostbyname w MAC_HOSTNAME) as [mac|e].
  - destruct (gethostbyname w (gethostname w)) as [cur|e]; [|now split].
    destruct (_ && _); [|now split].
    destruct (py_replace _ _ _); now split.
  - destruct e; try (now split). cbv zeta.
    destruct (gethostbyname w (gethostname w)); now split.
Qed.

(** [select_machine], by what [configs] holds under the name. *)
Lemma select_machine_cases (name : string) (p : Process) :
  select_machine w name p =
  if negb (truthy (configs (self p))) then (Raise NotLoadedError, p)
  else
    match configs (self p) with
    | PDict d =>
        let v := dict_get d name PNone in
        if negb (truthy v) then (Raise (UnknownProfileError name), p)
        else
          match v with
          | PDict attrs =>
              let p1 := mkProcess (connection_of attrs (self p)) (stdout p) in
              if py_all [dict_get attrs "endpoint_url" PNone;
                         dict_get attrs "aws_access_key_id" PNone;
                         dict_get attrs "aws_secret_access_key" PNone]
              then adjust_endpoint_ip w p1
              else (Raise MissingAttributesError, p1)
          | _ => (Raise (no_attribute v "get"), p)
          end
    | c => (Raise (no_attribute c "get"), p)
    end.
Proof.
  unfold select_machine, bind at 1. rewrite ensure_configs_loaded_run.
  destruct (truthy (configs (self p))) eqn:Ht; cbn [negb]; [|reflexivity].
  destruct (configs (self p)) as [| | | | |items|d] eqn:Hc;
    try (cbv [bind get_machine_config get_self call py_get]; now rewrite Hc).
  unfold bind at 1. rewrite (get_machine_config_run p d name Hc). cbv zeta.
  destruct (truthy (dict_get d name PNone)) eqn:Hv; cbn [negb]; [|reflexivity].
  destruct (dict_get d name PNone) as [| | | | |items|attrs]; try reflexivity.
  unfold bind at 1.
  rewrite set_connection_attributes_run, validate_attributes_run.
  cbn [self connection_of endpoint_url aws_access_key_id aws_secret_access_key].
  now destruct (py_all _).
Qed.

Lemma dict_get_truthy_listed (d : dict) (name : string) :
  truthy (dict_get d name PNone) = true -> In name (map fst d).
Proof.
  unfold dict_get. induction d as [|[k v] d IH]; cbn; [discriminate|].
  destruct (String.eqb_spec k name) as [->|Hne]; [now left|].
  intros H. right. now apply IH.
Qed.

Lemma connection_of_same_document (attrs : dict) (o o' : MinioConfig) :
  same_document o o' -> connection_of attrs o' = connection_of attrs o.
Proof. intros [H1 H2]. unfold connection_of. now rewrite H1, H2. Qed.

Lemma preserves_weaken {A} (R R' : MinioConfig -> MinioConfig -> Prop) (m : M A) :
  (forall o o', R o o' -> R' o o') -> preserves R m -> preserves R' m.
Proof. intros HRR Hm p. apply HRR, Hm. Qed.

(** [select_machine] never writes the path or the document. *)
Lemma preserves_select_machine (name : string) :
  preserves same_document (select_machine w name).
Proof.
  unfold select_machine.
  apply preserves_bind; [apply preserves_ensure_configs_loaded | intros _].
  apply preserves_bind; [apply preserves_get_machine_config | intros config].
  apply preserves_bind; [apply preserves_set_connection_attributes | intros _].
  apply (preserves_weaken same_but_endpoint);
    [apply same_but_endpoint_document | apply preserves_adjust_endpoint_ip].
Qed.

Lemma list_machines_run (p : Process) :
  list_machines p =
  if truthy (configs (self p)) then (py_keys (configs (self p)), p)
  else (Raise NotLoadedError, p).
Proof.
  unfold list_machines, bind at 1. rewrite ensure_configs_loaded_run.
  now destruct (truthy (configs (self p))).
Qed.

(** X6: [list_machines] never changes anything.  It raises the not-loaded
    error when [configs] is falsy, returns the profile names in the order of
    the document when [configs] is a non-empty object, and raises
    [AttributeError] when [configs] is any other truthy value, such as a
    loaded JSON array. *)
Theorem list_machines_outcome (p : Process) :
  snd (list_machines p) = p /\
  (truthy (configs (self p)) = false ->
   fst (list_machines p) = Raise NotLoadedError) /\
  (forall d, configs (self p) = PDict d -> d <> [] ->
   fst (list_machines p) = Ok (map fst d)) /\
  (truthy (configs (self p)) = true -> is_object (configs (self p)) = false ->
   fst (list_machines p) = Raise (no_attribute (configs (self p)) "keys")).
Proof.
  rewrite list_machines_run.
  destruct (truthy (configs (self p))) eqn:Ht; cbn [fst snd].
  - split; [reflexivity|]. split; [discriminate|]. split.
    + intros d Hd _. now rewrite Hd.
    + intros _ Hobj. now destruct (configs (self p)).
  - split; [reflexivity|]. split; [reflexivity|]. split.
    + intros d Hd Hne. rewrite Hd in Ht. destruct d; [congruence | discriminate].
    + discriminate.
Qed.

(** X7: [select_machine] returns only for a name that [list_machines]
    lists: when it returns, [configs] is an object, [list_machines] returns
    its names, and the selected name is one of them. *)
Theorem select_machine_only_listed (name : string) (p : Process) :
  fst (select_machine w name p) = Ok tt ->
  exists d, configs (self p) = PDict d /\
            list_machines p = (Ok (map fst d), p) /\
            In name (map fst d).
Proof.
  rewrite select_machine_cases.
  destruct (truthy (configs (self p))) eqn:Ht; cbn [negb]; [|discriminate].
  destruct (configs (self p)) as [| | | | |items|d] eqn:Hc; try discriminate.
  cbv zeta. destruct (truthy (dict_get d name PNone)) eqn:Hv; cbn [negb];
    [|discriminate].
  intros _. exists d. split; [reflexivity|]. split.
  - now rewrite list_machines_run, Hc, Ht.
  - now apply dict_get_truthy_listed.
Qed.

(** X8: [select_machine], whether it returns or raises, leaves the path and
    the loaded document as they were. *)
Theorem select_machine_keeps_document (name : string) (p : Process) :
  same_document (self p) (self (snd (select_machine w name p))).
Proof. apply preserves_select_machine. Qed.

(** X9: selecting the same profile again changes nothing: the second call
    has the outcome of the first and leaves the resolver as the first left
    it, so the endpoint is not rewritten a second time. *)
Theorem select_machine_idempotent (name : string) (p : Process) :
  let r1 := select_machine w name p in
  let r2 := select_machine w name (snd r1) in
  fst r2 = fst r1 /\ self (snd r2) = self (snd r1).
Proof.
  intros r1 r2. subst r2.
  pose proof (preserves_select_machine name p) as Hdoc. fold r1 in Hdoc.
  assert (Hr1 : r1 = select_machine w name p) by reflexivity.
  rewrite select_machine_cases in Hr1.
  rewrite select_machine_cases.
  destruct Hdoc as [Hpath Hcfg]. rewrite Hcfg.
  destruct (truthy (configs (self p))) eqn:Ht; cbn [negb] in *;
    [|now rewrite Hr1; cbn [fst snd]].
  destruct (configs (self p)) as [| | | | |items|d] eqn:Hc;
    try (now rewrite Hr1; cbn [fst snd]).
  cbv zeta in *.
  destruct (truthy (dict_get d name PNone)) eqn:Hv; cbn [negb] in *;
    [|now rewrite Hr1; cbn [fst snd]].
  destruct (dict_get d name PNone) as [| | | | |items|attrs];
    try (now rewrite Hr1; cbn [fst snd]).
  assert (Hconn : connection_of attrs (self (snd r1)) = connection_of attrs (self p)).
  { apply connection_of_same_document. split; [exact Hpath|].
    now rewrite Hcfg, Hc. }
  rewrite Hconn.
  destruct (py_all _) eqn:Hall.
  - set (p1 := mkProcess (connection_of attrs (self p)) (stdout p)) in *.
    set (q1 := mkProcess (connection_of attrs (self p)) (stdout (snd r1))).
    destruct (adjust_endpoint_ip_stdout_irrelevant q1 p1 eq_refl) as [Hf Hs].
    rewrite Hf, Hs, Hr1. now split.
  - rewrite Hr1. now split.
Qed.

(** X10: [adjust_endpoint_ip] can only change [endpoint_url], and when it
    raises it has changed nothing. *)
Theorem adjust_endpoint_ip_only_endpoint (p : Process) :
  same_but_endpoint (self p) (self (snd (adjust_endpoint_ip w p))) /\
  (forall e, fst (adjust_endpoint_ip w p) = Raise e ->
     self (snd (adjust_endpoint_ip w p)) = self p).
Proof.
  split; [apply preserves_adjust_endpoint_ip|].
  intros e. rewrite adjust_endpoint_ip_cases.
  destruct (gethostbyname w MAC_HOSTNAME) as [mac|e0].
  - destruct (gethostbyname w (gethostname w)) as [cur|e1]; [|reflexivity].
    destruct (_ && _); [|reflexivity].
    destruct (py_replace _ _ _); [discriminate | reflexivity].
  - destruct e0; try reflexivity. cbv zeta.
    now destruct (gethostbyname w (gethostname w)).
Qed.

(** X11: a profile whose endpoint is a truthy value that is not a string
    passes validation, and on a machine whose address differs from the
    reference host's the selection then raises [AttributeError] from
    [replace], the five attributes already overwritten with the profile's. *)
Theorem select_machine_non_string_endpoint
    (p : Process) (d attrs : dict) (name mac cur : string) (v : pyval) :
  configs (self p) = PDict d ->
  dict_lookup d name = Some (PDict attrs) ->
  dict_lookup attrs "endpoint_url" = Some v ->
  truthy v = true -> (forall s, v <> PStr s) ->
  truthy (dict_get attrs "aws_access_key_id" PNone) = true ->
  truthy (dict_get attrs "aws_secret_access_key" PNone) = true ->
  gethostbyname w MAC_HOSTNAME = Ok mac ->
  gethostbyname w (gethostname w) = Ok cur ->
  mac <> "" -> mac <> cur ->
  fst (select_machine w name p) = Raise (no_attribute v "replace") /\
  self (snd (select_machine w name p)) = connection_of attrs (self p).
Proof.
  intros Hd Hl Hv Htv Hns Hk Hs Hmac Hcur Hne Hdiff.
  assert (Hattrs : attrs <> []) by (intros ->; discriminate).
  rewrite (select_machine_run w p d attrs name Hd Hl Hattrs). cbv zeta.
  assert (Hget : dict_get attrs "endpoint_url" PNone = v)
    by (unfold dict_get; now rewrite Hv).
  unfold py_all. cbn [forallb]. rewrite Hget, Htv, Hk, Hs. cbn [andb].
  rewrite (adjust_endpoint_ip_resolved w _ mac cur Hmac Hcur).
  cbn [self connection_of endpoint_url]. rewrite Hget, Htv.
  destruct (String.eqb_spec mac ""); [contradiction|].
  destruct (String.eqb_spec cur mac); [congruence|].
  cbn [negb andb].
  destruct v; cbn [py_replace fst snd self]; try (now split).
  now elim (Hns s).
Qed.

End EveryCase.

(** * The storage client *)

Section TheClient.

Context {Client : Type}.
Variable w : World.
Variable b : Boto3 Client.

Lemma get_minio_client_run (p : Process) :
  get_minio_client b p =
  if py_all [endpoint_url (self p); aws_access_key_id (self p);
             aws_secret_access_key (self p)]
  then (boto3_client b "s3" (endpoint_url (self p)) (aws_access_key_id (self p))
          (aws_secret_access_key (self p)) (signature_version (self p))
          (region_name (self p)), p)
  else (Raise MissingAttributesError, p).
Proof.
  unfold get_minio_client, bind at 1. rewrite validate_attributes_run.
  now destruct (py_all _).
Qed.

Lemma print_buckets_named (buckets : list Bucket) (names : list string)
    (p : Process) :
  map Name buckets = map Some names ->
  print_buckets buckets p =
  (inr tt, mkProcess (self p) (stdout p ++ bucket_lines names)).
Proof.
  revert names p; induction buckets as [|[name] rest IH]; intros names p Hn.
  - destruct names; [|discriminate]. cbn. rewrite app_nil_r. now destruct p.
  - destruct names as [|n names]; [discriminate|]. cbn in Hn.
    inversion Hn; subst. cbn [print_buckets Name].
    cbv [try_bind try_call getitem try_print]. fold print_buckets.
    rewrite (IH names) by assumption.
    cbn [self stdout bucket_lines map]. now rewrite <- app_assoc.
Qed.

(** Printing the buckets stops at the first one without a name. *)
Lemma print_buckets_unnamed (named rest : list Bucket) (names : list string)
    (p : Process) :
  map Name named = map Some names ->
  print_buckets (named ++ mkBucket None :: rest)%list p =
  (inl (KeyError "Name"), mkProcess (self p) (stdout p ++ bucket_lines names)).
Proof.
  revert names p; induction named as [|[name] named IH]; intros names p Hn.
  - destruct names; [|discriminate]. cbn. rewrite app_nil_r. now destruct p.
  - destruct names as [|n names]; [discriminate|]. cbn in Hn.
    inversion Hn; subst. cbn [print_buckets Name app].
    cbv [try_bind try_call getitem try_print]. fold print_buckets.
    rewrite (IH names) by assumption.
    cbn [self stdout bucket_lines map]. now rewrite <- app_assoc.
Qed.

Lemma print_buckets_self (buckets : list Bucket) (p : Process) :
  self (snd (print_buckets buckets p)) = self p /\
  exists lines, stdout (snd (print_buckets buckets p)) = (stdout p ++ lines)%list.
Proof.
  revert p; induction buckets as [|[[name|]] rest IH]; intros p.
  - split; [reflexivity|]. exists []. cbn. now rewrite app_nil_r.
  - cbn [print_buckets Name]. cbv [try_bind try_call getitem try_print].
    fold print_buckets.
    destruct (IH (mkProcess (self p) (stdout p ++ [" - " ++ name])))
      as [Hs [lines Hl]].
    cbn [self stdout] in *. split; [exact Hs|].
    exists ((" - " ++ name)%string :: lines). rewrite Hl. now rewrite <- app_assoc.
  - split; [reflexivity|]. exists []. cbn. now rewrite app_nil_r.
Qed.

(** [test_connection] by what [list_buckets] answers: an exception, raised
    by the call or while reading the answer, is reported in one line. *)
Lemma test_connection_run (client : Client) (p : Process) :
  test_connection b client p =
  let report e q :=
    (Ok tt,
     mkProcess (self q)
       (stdout q ++
        [match e with
         | NoCredentialsError msg => "Credentials error: " ++ msg
         | PartialCredentialsError msg => "Credentials error: " ++ msg
         | EndpointConnectionError _ =>
             "Unable to connect to the endpoint. Check your connection or endpoint URL."
         | _ => "An error occurred: " ++ str_of_client_exn e
         end])) in
  match list_buckets b client with
  | inl e => report e p
  | inr response =>
      match Buckets response with
      | None => report (KeyError "Buckets") p
      | Some [] =>
          (Ok tt,
           mkProcess (self p)
             (stdout p ++ ["Connection successful, but no buckets found."]))
      | Some (bucket :: rest) =>
          let p1 := mkProcess (self p)
                      (stdout p ++ ["Connection successful! Buckets found:"]) in
          match print_buckets (bucket :: rest) p1 with
          | (inr _, p2) => (Ok tt, p2)
          | (inl e, p2) => report e p2
          end
      end
  end.
Proof.
  unfold test_connection, except_all.
  cbv [try_bind try_call getitem try_print].
  destruct (list_buckets b client) as [e|[[[|bucket rest]|]]];
    cbn [Buckets]; try reflexivity.
  - now destruct e.
  - cbv zeta.
    destruct (print_buckets (bucket :: rest) _) as [[e|[]] p2];
      [now destruct e | reflexivity].
Qed.

(** The connection test returns and leaves the resolver alone. *)
Lemma test_connection_never_raises_aux (client : Client) (p : Process) :
  fst (test_connection b client p) = Ok tt /\
  self (snd (test_connection b client p)) = self p.
Proof.
  rewrite test_connection_run. cbv zeta.
  destruct (list_buckets b client) as [e|[[[|bucket rest]|]]]; cbn [Buckets];
    try (now split).
  destruct (print_buckets_self (bucket :: rest)
              (mkProcess (self p)
                 (stdout p ++ ["Connection successful! Buckets found:"])))
    as [Hs _].
  destruct (print_buckets (bucket :: rest) _) as [[e|[]] p2];
    cbn [fst snd self] in *; now split.
Qed.

(** X12: [test_connection] never raises and never touches the resolver,
    whatever [list_buckets] answers or raises; it always prints at least one
    line. *)
Theorem test_connection_never_raises (client : Client) (p : Process) :
  fst (test_connection b client p) = Ok tt /\
  self (snd (test_connection b client p)) = self p /\
  exists line lines,
    stdout (snd (test_connection b client p)) = (stdout p ++ line :: lines)%list.
Proof.
  rewrite test_connection_run. cbv zeta.
  destruct (list_buckets b client) as [e|[[[|bucket rest]|]]]; cbn [Buckets].
  - destruct e; (split; [reflexivity|]; split; [reflexivity|]);
      eexists; exists []; reflexivity.
  - split; [reflexivity|]; split; [reflexivity|]. eexists; exists []; reflexivity.
  - destruct (print_buckets_self (bucket :: rest)
                (mkProcess (self p)
                   (stdout p ++ ["Connection successful! Buckets found:"])))
      as [Hs [lines Hl]].
    destruct (print_buckets (bucket :: rest) _) as [[e|[]] p2];
      cbn [fst snd self stdout] in *.
    + split; [reflexivity|]. split; [exact Hs|].
      eexists "Connection successful! Buckets found:", (lines ++ [_])%list.
      rewrite Hl, <- !app_assoc. reflexivity.
    + split; [reflexivity|]. split; [exact Hs|].
      exists "Connection successful! Buckets found:", lines.
      rewrite Hl, <- app_assoc. reflexivity.
  - split; [reflexivity|]; split; [reflexivity|]. eexists; exists []; reflexivity.
Qed.

(** X13: when [list_buckets] answers with buckets that all have a name,
    [test_connection] prints the heading and one line per bucket, in the
    order of the answer, or the no-buckets line when there is none. *)
Theorem test_connection_lists_buckets
    (client : Client) (p : Process) (buckets : list Bucket) (names : list string) :
  list_buckets b client = inr (mkListBucketsOutput (Some buckets)) ->
  map Name buckets = map Some names ->
  stdout (snd (test_connection b client p)) =
    (stdout p ++
     match names with
     | [] => ["Connection successful, but no buckets found."]
     | _ :: _ => "Connection successful! Buckets found:" :: bucket_lines names
     end)%list.
Proof.
  intros Hl Hn. rewrite test_connection_run, Hl. cbv zeta. cbn [Buckets].
  destruct buckets as [|bucket rest].
  - now destruct names.
  - destruct names as [|n names]; [discriminate|].
    rewrite (print_buckets_named (bucket :: rest) (n :: names)) by assumption.
    cbn [snd stdout]. now rewrite <- app_assoc.
Qed.

(** X14: when a bucket of the answer has no name, [test_connection] prints
    the heading and the buckets before it, then reports the [KeyError] and
    stops: the buckets after it are not printed. *)
Theorem test_connection_stops_at_unnamed_bucket
    (client : Client) (p : Process) (named rest : list Bucket)
    (names : list string) :
  list_buckets b client =
    inr (mkListBucketsOutput (Some (named ++ mkBucket None :: rest)%list)) ->
  map Name named = map Some names ->
  stdout (snd (test_connection b client p)) =
    (stdout p ++
     "Connection successful! Buckets found:" :: bucket_lines names
     ++ ["An error occurred: 'Name'"])%list.
Proof.
  intros Hl Hn. rewrite test_connection_run, Hl. cbv zeta. cbn [Buckets].
  destruct (named ++ mkBucket None :: rest)%list as [|bucket others] eqn:Hb;
    [now destruct named|].
  rewrite <- Hb, (print_buckets_unnamed named rest names) by assumption.
  cbn [snd stdout self str_of_client_exn].
  rewrite <- !app_assoc. reflexivity.
Qed.

(** X15: loading alone does not make a client available: on a new resolver,
    after [load_config], whatever it did, [get_minio_client] raises the
    missing-attributes error and boto3 is not consulted. *)
Theorem get_minio_client_needs_selection (path : Path) (out : list string) :
  get_minio_client b (snd (load_config w (mkProcess (init path) out)))
  = (Raise MissingAttributesError,
     snd (load_config w (mkProcess (init path) out))).
Proof.
  rewrite get_minio_client_run.
  destruct (preserves_load_config w (mkProcess (init path) out)) as (He & _).
  cbn [self init endpoint_url] in He. now rewrite He.
Qed.

End TheClient.

(** * From the file to the client *)

Section FromFileToClient.

Context {Client : Type}.
Variable w : World.
Variable b : Boto3 Client.

Lemma append_nonempty (a x : string) : a <> "" -> a ++ x <> "".
Proof. destruct a; [congruence | discriminate]. Qed.

Lemma str_replace_nonempty (old new s : string) :
  old <> "" -> new <> "" -> s <> "" -> str_replace old new s <> "".
Proof.
  intros Ho Hn Hs. unfold str_replace.
  destruct (String.eqb_spec old ""); [contradiction|].
  destruct s as [|c s]; [congruence|].
  cbv beta iota delta [replace_from]; fold replace_from.
  destruct (prefix old (String c s)); [now apply append_nonempty | discriminate].
Qed.

(** Valid attributes stay valid through a successful adjustment, as long as
    the current host's address is not the empty string. *)
Lemma adjust_endpoint_ip_keeps_valid (p : Process) :
  (forall cur, gethostbyname w (gethostname w) = Ok cur -> cur <> "") ->
  py_all [endpoint_url (self p); aws_access_key_id (self p);
          aws_secret_access_key (self p)] = true ->
  fst (adjust_endpoint_ip w p) = Ok tt ->
  let o := self (snd (adjust_endpoint_ip w p)) in
  py_all [endpoint_url o; aws_access_key_id o; aws_secret_access_key o] = true.
Proof.
  intros Hcur Hall. rewrite adjust_endpoint_ip_cases.
  destruct (gethostbyname w MAC_HOSTNAME) as [mac|e].
  - destruct (gethostbyname w (gethostname w)) as [cur|e]; [|discriminate].
    specialize (Hcur cur eq_refl).
    destruct (String.eqb_spec mac "") as [->|Hm]; cbn [negb andb];
      [intros _; exact Hall|].
    destruct (cur =? mac); cbn [negb andb]; [intros _; exact Hall|].
    destruct (truthy (endpoint_url (self p))) eqn:Ht; [|intros _; exact Hall].
    destruct (endpoint_url (self p)) as [| | | |url| |] eqn:Hu;
      cbn [py_replace]; try discriminate.
    intros _. cbn [snd self set_endpoint_url endpoint_url aws_access_key_id
                   aws_secret_access_key].
    unfold py_all in *. cbn [forallb] in *.
    apply andb_true_iff in Hall as [_ Hrest]. rewrite Hrest, andb_true_r.
    cbn [truthy].
    destruct (String.eqb_spec (str_replace mac cur url) "") as [He|]; [|reflexivity].
    exfalso. revert He. apply str_replace_nonempty; try assumption.
    intros ->. discriminate.
  - destruct e; try discriminate. cbv zeta.
    destruct (gethostbyname w (gethostname w)); [|discriminate].
    intros _. exact Hall.
Qed.

(** X16: after [select_machine] has returned, [get_minio_client] passes
    validation and returns what boto3 makes of the five attributes the
    resolver holds, without changing them, provided the current host's
    address is not the empty string. *)
Theorem get_minio_client_after_select (name : string) (p : Process) :
  (forall cur, gethostbyname w (gethostname w) = Ok cur -> cur <> "") ->
  fst (select_machine w name p) = Ok tt ->
  let p' := snd (select_machine w name p) in
  get_minio_client b p' =
  (boto3_client b "s3" (endpoint_url (self p')) (aws_access_key_id (self p'))
     (aws_secret_access_key (self p')) (signature_version (self p'))
     (region_name (self p')), p').
Proof.
  intros Hcur Hok p'. rewrite get_minio_client_run.
  assert (Hvalid : py_all [endpoint_url (self p'); aws_access_key_id (self p');
                           aws_secret_access_key (self p')] = true).
  { subst p'. revert Hok. rewrite select_machine_cases.
    destruct (truthy (configs (self p))); cbn [negb]; [|discriminate].
    destruct (configs (self p)) as [| | | | |items|d]; try discriminate.
    cbv zeta.
    destruct (truthy (dict_get d name PNone)); cbn [negb]; [|discriminate].
    destruct (dict_get d name PNone) as [| | | | |items|attrs]; try discriminate.
    destruct (py_all _) eqn:Hall; [|discriminate].
    intros Hok. now apply adjust_endpoint_ip_keeps_valid. }
  now rewrite Hvalid.
Qed.

(** [setup_default_client], stage by stage. *)
Lemma setup_default_client_run (name : string) (p : Process) :
  setup_default_client w b name p =
  match load_config w p with
  | (Raise e, p1) => (Raise e, p1)
  | (Ok _, p1) =>
      match select_machine w name p1 with
      | (Raise e, p2) => (Raise e, p2)
      | (Ok _, p2) =>
          match get_minio_client b p2 with
          | (Raise e, p3) => (Raise e, p3)
          | (Ok client, p3) => (Ok client, snd (test_connection b client p3))
          end
      end
  end.
Proof.
  unfold setup_default_client, bind, ret.
  destruct (load_config w p) as [[[]|e] p1]; [|reflexivity].
  destruct (select_machine w name p1) as [[[]|e] p2]; [|reflexivity].
  destruct (get_minio_client b p2) as [[client|e] p3]; [|reflexivity].
  destruct (test_connection_never_raises_aux b client p3) as [Hok _].
  destruct (test_connection b client p3) as [[[]|e] p4]; [reflexivity|].
  discriminate.
Qed.

(** X17: [setup_default_client] stops at the first stage that raises, with
    that stage's exception; when loading, selecting and building the client
    succeed it returns the client, whatever the connection test met, and the
    resolver is as the selection left it. *)
Theorem setup_default_client_stages (name : string) (p : Process) :
  let l := load_config w p in
  let s := select_machine w name (snd l) in
  let g := get_minio_client b (snd s) in
  let r := setup_default_client w b name p in
  (forall e, fst l = Raise e -> r = (Raise e, snd l)) /\
  (fst l = Ok tt -> forall e, fst s = Raise e -> r = (Raise e, snd s)) /\
  (fst l = Ok tt -> fst s = Ok tt ->
   forall e, fst g = Raise e -> r = (Raise e, snd s)) /\
  (fst l = Ok tt -> fst s = Ok tt ->
   forall client, fst g = Ok client ->
     fst r = Ok client /\ self (snd r) = self (snd s)).
Proof.
  intros l s g r. subst r. rewrite setup_default_client_run.
  subst g. rewrite get_minio_client_run. subst s l.
  destruct (load_config w p) as [[[]|e] p1]; cbn [fst snd].
  2:{ split; [intros e' H; now inversion H|].
      split; [discriminate|]. split; discriminate. }
  split; [discriminate|].
  destruct (select_machine w name p1) as [[[]|e] p2]; cbn [fst snd].
  2:{ split; [intros _ e' H; now inversion H|]. split; discriminate. }
  split; [discriminate|].
  rewrite get_minio_client_run.
  destruct (py_all _); cbn [fst snd].
  - destruct (boto3_client b _ _ _ _ _ _) as [client|e]; cbn [fst snd].
    + split; [discriminate|]. intros _ _ c H. inversion H; subst.
      split; [reflexivity|].
      now destruct (test_connection_never_raises_aux b c p2) as (_ & Hs).
    + split; [|discriminate]. intros _ _ e' H. now inversion H.
  - split; [|discriminate]. intros _ _ e' H. now inversion H.
Qed.

(** X18: when [setup_default_client] returns a client, the resolver holds a
    loaded document and three truthy required attributes, and the client is
    what boto3 made of the five attributes the resolver ends with. *)
Theorem setup_default_client_success
    (name : string) (p : Process) (client : Client) :
  fst (setup_default_client w b name p) = Ok client ->
  let o := self (snd (setup_default_client w b name p)) in
  truthy (configs o) = true /\
  py_all [endpoint_url o; aws_access_key_id o; aws_secret_access_key o] = true /\
  boto3_client b "s3" (endpoint_url o) (aws_access_key_id o)
    (aws_secret_access_key o) (signature_version o) (region_name o)
  = Ok client.
Proof.
  rewrite setup_default_client_run.
  destruct (load_config w p) as [[[]|e] p1]; [|discriminate].
  pose proof (preserves_select_machine w name p1) as [_ Hcfg].
  pose proof (select_machine_cases w name p1) as Hsel.
  destruct (select_machine w name p1) as [[[]|e] p2]; [|discriminate].
  cbn [snd] in Hcfg.
  assert (Ht : truthy (configs (self p1)) = true).
  { destruct (truthy (configs (self p1))); [reflexivity|].
    cbn [negb] in Hsel. discriminate. }
  rewrite get_minio_client_run.
  destruct (py_all _) eqn:Hall; [|discriminate].
  destruct (boto3_client b _ _ _ _ _ _) as [c|e] eqn:Hc; [|discriminate].
  cbn [fst snd]. intros H; inversion H; subst.
  destruct (test_connection_never_raises_aux b client p2) as (_ & Hs).
  cbv zeta. rewrite Hs, Hcfg. repeat split; assumption.
Qed.

End FromFileToClient.

(** * The further theorems at concrete inputs *)

Section MoreExamples.

Lemma prompt_for_config_file_selection_witness :
  fst (prompt_for_config_file
         (prompting_world ["/etc/minio/home.json"; "/etc/minio/lab.json"] "2" (Ok 2%Z))
         fresh) = Ok "/etc/minio/lab.json" /\
  stdout (snd (prompt_for_config_file
         (prompting_world ["/etc/minio/home.json"; "/etc/minio/lab.json"] "2" (Ok 2%Z))
         fresh))
    = ["Default configuration file not found. Available files:";
       "1: /etc/minio/home.json"; "2: /etc/minio/lab.json"].
Proof.
  destruct (prompt_for_config_file_selection
              (prompting_world ["/etc/minio/home.json"; "/etc/minio/lab.json"] "2" (Ok 2%Z))
              fresh ["/etc/minio/home.json"; "/etc/minio/lab.json"] "2" 2%Z
              eq_refl ltac:(discriminate) eq_refl eq_refl)
    as (_ & Hout & Hin & _).
  split; [|exact Hout].
  destruct Hin as (chosen & Hnth & Hr); [cbn; lia|].
  cbn in Hnth. inversion Hnth; subst. exact Hr.
Defined.

Lemma load_config_success_witness :
  exists path text doc,
    fst (get_valid_config_path (office mac_document_text (Ok mac_document)) fresh)
      = Ok path /\
    open_text (office mac_document_text (Ok mac_document)) path = Ok text /\
    json_load (office mac_document_text (Ok mac_document)) text = Ok doc /\
    config_file_path (self (snd (load_config
        (office mac_document_text (Ok mac_document)) fresh))) = path /\
    configs (self (snd (load_config
        (office mac_document_text (Ok mac_document)) fresh))) = doc.
Proof.
  apply (load_config_success (office mac_document_text (Ok mac_document)) fresh).
  reflexivity.
Defined.

Lemma select_machine_only_listed_witness :
  exists d, configs (self (loaded mac_document)) = PDict d /\
            list_machines (loaded mac_document) = (Ok (map fst d), loaded mac_document) /\
            In "mac" (map fst d).
Proof.
  apply (select_machine_only_listed
           (office mac_document_text (Ok mac_document)) "mac" (loaded mac_document)).
  reflexivity.
Defined.

Lemma select_machine_non_string_endpoint_witness :
  fst (select_machine (office numeric_document_text (Ok numeric_document)) "mac"
         (loaded numeric_document))
    = Raise (AttributeError "'int' object has no attribute 'replace'") /\
  endpoint_url (self (snd (select_machine
         (office numeric_document_text (Ok numeric_document)) "mac"
         (loaded numeric_document)))) = PInt 9000.
Proof.
  destruct (select_machine_non_string_endpoint
              (office numeric_document_text (Ok numeric_document))
              (loaded numeric_document)
              [("mac", PDict [("endpoint_url", PInt 9000);
                              ("aws_access_key_id", PStr "minioadmin");
                              ("aws_secret_access_key", PStr "minio-secret")])]
              [("endpoint_url", PInt 9000);
               ("aws_access_key_id", PStr "minioadmin");
               ("aws_secret_access_key", PStr "minio-secret")]
              "mac" "10.0.0.5" "10.0.0.9" (PInt 9000)
              eq_refl eq_refl eq_refl eq_refl ltac:(discriminate)
              eq_refl eq_refl eq_refl eq_refl
              ltac:(discriminate) ltac:(discriminate)) as [Hraise Hself].
  split; [exact Hraise | now rewrite Hself].
Defined.

Lemma test_connection_lists_buckets_witness :
  stdout (snd (test_connection (sample_boto3 two_buckets)
                 (mkClientSettings "s3" PNone PNone PNone PNone PNone) fresh))
    = ["Connection successful! Buckets found:"; " - backups"; " - photos"].
Proof.
  apply (test_connection_lists_buckets (sample_boto3 two_buckets)
           (mkClientSettings "s3" PNone PNone PNone PNone PNone) fresh
           [mkBucket (Some "backups"); mkBucket (Some "photos")]
           ["backups"; "photos"]); reflexivity.
Defined.

Lemma test_connection_stops_at_unnamed_bucket_witness :
  stdout (snd (test_connection
                 (sample_boto3 (inr (mkListBucketsOutput
                    (Some [mkBucket (Some "backups"); mkBucket None;
                           mkBucket (Some "photos")]))))
                 (mkClientSettings "s3" PNone PNone PNone PNone PNone) fresh))
    = ["Connection successful! Buckets found:"; " - backups";
       "An error occurred: 'Name'"].
Proof.
  apply (test_connection_stops_at_unnamed_bucket
           (sample_boto3 (inr (mkListBucketsOutput
              (Some [mkBucket (Some "backups"); mkBucket None;
                     mkBucket (Some "photos")]))))
           (mkClientSettings "s3" PNone PNone PNone PNone PNone) fresh
           [mkBucket (Some "backups")] [mkBucket (Some "photos")] ["backups"]);
    reflexivity.
Defined.

Lemma get_minio_client_after_select_witness :
  fst (get_minio_client (sample_boto3 two_buckets)
         (snd (select_machine (office mac_document_text (Ok mac_document)) "mac"
                 (loaded mac_document))))
    = Ok (mkClientSettings "s3" (PStr "http://10.0.0.9:9000") (PStr "minioadmin")
            (PStr "minio-secret") (PStr "s3v4") (PStr "us-east-1")).
Proof.
  rewrite (get_minio_client_after_select
             (office mac_document_text (Ok mac_document)) (sample_boto3 two_buckets)
             "mac" (loaded mac_document)).
  - reflexivity.
  - intros cur H. vm_compute in H. inversion H. discriminate.
  - reflexivity.
Defined.

Lemma setup_default_client_success_witness :
  let o := self (snd (setup_default_client
                        (office mac_document_text (Ok mac_document))
                        (sample_boto3 refused) "mac" fresh)) in
  truthy (configs o) = true /\
  py_all [endpoint_url o; aws_access_key_id o; aws_secret_access_key o] = true /\
  boto3_client (sample_boto3 refused) "s3" (endpoint_url o) (aws_access_key_id o)
    (aws_secret_access_key o) (signature_version o) (region_name o)
  = Ok (mkClientSettings "s3" (PStr "http://10.0.0.9:9000") (PStr "minioadmin")
          (PStr "minio-secret") (PStr "s3v4") (PStr "us-east-1")).
Proof.
  apply (setup_default_client_success
           (office mac_document_text (Ok mac_document)) (sample_boto3 refused)
           "mac" fresh
           (mkClientSettings "s3" (PStr "http://10.0.0.9:9000") (PStr "minioadmin")
              (PStr "minio-secret") (PStr "s3v4") (PStr "us-east-1"))).
  reflexivity.
Defined.

(** A refused connection is printed, not raised. *)
Example setup_default_client_refused :
  fst (setup_default_client (office mac_document_text (Ok mac_document))
         (sample_boto3 refused) "mac" fresh)
    = Ok (mkClientSettings "s3" (PStr "http://10.0.0.9:9000") (PStr "minioadmin")
            (PStr "minio-secret") (PStr "s3v4") (PStr "us-east-1")) /\
  stdout (snd (setup_default_client (office mac_document_text (Ok mac_document))
                 (sample_boto3 refused) "mac" fresh))
    = ["Loaded configuration from: /etc/minio/minio_configs.json";
       "Endpoint URL updated to current IP (10.0.0.9): http://10.0.0.9:9000";
       "Unable to connect to the endpoint. Check your connection or endpoint URL."].
Proof. split; reflexivity. Qed.

End MoreExamples.
